(** * compressor_toolkit.precompilers

    A shallow embedding of [BaseCompiler], [SCSSCompiler] and [ES6Compiler]
    (src/compressor_toolkit/precompilers.py), the two django-compressor
    pre-compilers of this package, and the properties of the static-root
    aggregation, of the option values the constructors compute and of the
    temporary input file that [BaseCompiler.input] prepares.

    Python values are modelled as follows: a [str] is a [string], [bytes] is
    a [list Byte.byte], a [set] of strings is a [gset string], a [dict] with
    string keys is a [gmap string _], a tuple of pairs is a list of pairs,
    an attribute that an object may lack ([hasattr]) or that may be [None]
    is an [option], and a call that may raise returns a [result]. *)

From Stdlib.Strings Require Import Byte Ascii.
From stdpp Require Import gmap strings list.

Open Scope string_scope.

(** ** Exceptions and results *)

Inductive exn : Type :=
  | ImproperlyConfigured (msg : string)
  | ImportError (msg : string)
  | KeyError (key : string)
  | ValueError (msg : string)
  | IndexError (msg : string)
  | UnicodeEncodeError (codec : string)
  | LookupError (codec : string)
  | FileExistsError
  | AttributeError (msg : string)
  | OSError (msg : string)
  | FilterError (msg : string).

Inductive result (A : Type) : Type :=
  | Ok (a : A)
  | Raise (e : exn).
Arguments Ok {A} a.
Arguments Raise {A} e.

Global Instance result_ret : MRet result := λ _ a, Ok a.

Global Instance result_bind : MBind result := λ _ _ k r,
  match r with
  | Ok a => k a
  | Raise e => Raise e
  end.

Global Instance result_fmap : FMap result := λ _ _ f r,
  match r with
  | Ok a => Ok (f a)
  | Raise e => Raise e
  end.

(** ** Static-file finders

    Of a storage backend only its [location] is read; a finder may have a
    [storages] dictionary (named backends), a single [storage], both or
    neither. *)

Record Storage : Type := { location : string }.

Record Finder : Type := {
  storages : option (gmap string Storage);
  storage : option Storage
}.

Record Settings : Type := {
  STATICFILES_FINDERS : list string;
  COMPRESS_NODE_MODULES : option string
}.

(** ** What the package takes from its surroundings

    [get_finder] is [django.contrib.staticfiles.finders.get_finder];
    [set_iter] is the order in which Python iterates over a set;
    [pathsep] is [os.pathsep]; [encode codec text] is [text.encode(codec)];
    [tmpdir] and [tmp_names] are the directory and the stream of candidate
    names from which [NamedTemporaryFile] draws, and [TMP_MAX] is
    [tempfile.TMP_MAX], the number of candidates it tries: [os.TMP_MAX]
    where the platform has one (238328 with glibc), 10000 otherwise. *)

Class Runtime : Type := {
  get_finder : string → result Finder;
  set_iter : gset string → list string;
  pathsep : string;
  encode : string → string → result (list byte);
  tmpdir : string;
  tmp_names : list string;
  TMP_MAX : nat
}.

(** ** [BaseCompiler.get_all_static] *)

Section get_all_static.
Context `{Runtime}.

(** [static_dirs.add(p)]. *)
Definition set_add (p : string) (s : gset string) : gset string := {[p]} ∪ s.

(** The inner loop [for storage in finder.storages.values()]. *)
Definition add_storages (m : gmap string Storage) (static_dirs : gset string)
  : gset string :=
  foldl (λ dirs st, set_add (location st) dirs) static_dirs (map_to_list m).*2.

(** The body of the outer loop, for a resolved finder. *)
Definition add_finder (f : Finder) (static_dirs : gset string) : gset string :=
  let static_dirs :=
    match storages f with
    | Some m => add_storages m static_dirs
    | None => static_dirs
    end in
  match storage f with
  | Some st => set_add (location st) static_dirs
  | None => static_dirs
  end.

(** [for finder in settings.STATICFILES_FINDERS], from the set collected
    so far. *)
Fixpoint collect (ids : list string) (static_dirs : gset string)
  : result (gset string) :=
  match ids with
  | [] => Ok static_dirs
  | id :: rest =>
      f ← get_finder id;
      collect rest (add_finder f static_dirs)
  end.

Definition get_all_static (settings : Settings) : result (gset string) :=
  collect (STATICFILES_FINDERS settings) ∅.
End get_all_static.

(** ** Python strings *)

(** [needle in hay], for two strings. *)
Fixpoint str_in (needle hay : string) : bool :=
  String.prefix needle hay ||
  match hay with
  | EmptyString => false
  | String _ rest => str_in needle rest
  end.

(** [hay] has [needle] as a substring. *)
Definition contains (needle hay : string) : Prop :=
  ∃ pre post, hay = pre +:+ needle +:+ post.

(** [hay.endswith(suffix)]. *)
Definition endswith (hay suffix : string) : Prop :=
  ∃ pre, hay = pre +:+ suffix.

(** [sep.join(parts)]. *)
Definition join (sep : string) (parts : list string) : string :=
  String.concat sep parts.

(** [dict(options)] for a tuple of pairs: a later pair replaces an earlier
    one with the same key. *)
Definition dict (options : list (string * string)) : gmap string string :=
  foldl (λ d kv, <[kv.1 := kv.2]> d) ∅ options.

Definition is_digit (c : ascii) : bool :=
  (48 <=? nat_of_ascii c)%nat && (nat_of_ascii c <=? 57)%nat.

Fixpoint all_digits (s : string) : bool :=
  match s with
  | EmptyString => true
  | String c rest => is_digit c && all_digits rest
  end.

(** The value of the replacement field [{name}] in
    [str.format] called with keyword arguments only: an
    empty or numeric name asks for a positional argument. *)
Definition field_value (kwargs : gmap string string) (name : string)
  : result string :=
  if all_digits name then
    Raise (IndexError "Replacement index out of range for positional args tuple")
  else
    match kwargs !! name with
    | Some v => Ok v
    | None => Raise (KeyError name)
    end.

(** A character that makes a replacement field more than a plain name:
    attribute access, indexing, a conversion, a format specification or a
    nested field. *)
Definition compound_char (c : ascii) : bool :=
  bool_decide (c ∈ ["."; "["; "!"; ":"; "{"]%char).

(** [str.format] with keyword arguments of string value, scanned from left to
    right as Python does: [field] is [None] in literal text and holds the
    name read so far inside a replacement field. [{{] and [}}] are the
    escaped braces. Compound replacement fields are outside the fragment
    modelled (neither command template of this package has one) and are
    reported as a [ValueError]. *)
Fixpoint format_from (kwargs : gmap string string) (field : option string)
    (template : string) : result string :=
  match field, template with
  | None, EmptyString => Ok EmptyString
  | None, String c rest =>
      if Ascii.eqb c "{" then
        match rest with
        | EmptyString =>
            Raise (ValueError "Single '{' encountered in format string")
        | String c' rest' =>
            if Ascii.eqb c' "{" then
              String "{" <$> format_from kwargs None rest'
            else format_from kwargs (Some EmptyString) rest
        end
      else if Ascii.eqb c "}" then
        match rest with
        | EmptyString =>
            Raise (ValueError "Single '}' encountered in format string")
        | String c' rest' =>
            if Ascii.eqb c' "}" then
              String "}" <$> format_from kwargs None rest'
            else Raise (ValueError "Single '}' encountered in format string")
        end
      else String c <$> format_from kwargs None rest
  | Some name, EmptyString =>
      Raise (ValueError "expected '}' before end of string")
  | Some name, String c rest =>
      if Ascii.eqb c "}" then
        v ← field_value kwargs name;
        (String.app v) <$> format_from kwargs None rest
      else if compound_char c then
        Raise (ValueError "compound replacement field")
      else format_from kwargs (Some (name +:+ String c EmptyString)) rest
  end.

(** [template.format] with the keyword arguments [kwargs]. The two
    commands of this package are such templates, which django-compressor
    fills from the options of the job. *)
Definition str_format (template : string) (kwargs : gmap string string)
  : result string :=
  format_from kwargs None template.

(** ** Files

    The file system maps a path to the bytes on disk. A file object opened
    for writing holds its path and the bytes written but not yet flushed. *)

Abbreviation FS := (gmap string (list byte)).

Record TempFile : Type := {
  name : string;
  pending : list byte
}.

(** [f.write(data)]. *)
Definition write (f : TempFile) (data : list byte) : TempFile :=
  {| name := name f; pending := (pending f ++ data)%list |}.

(** [f.flush()]: the pending bytes reach the disk. *)
Definition flush (f : TempFile) (fs : FS) : TempFile * FS :=
  ({| name := name f; pending := [] |},
   alter (λ on_disk, (on_disk ++ pending f)%list) (name f) fs).

(** ** Compile jobs *)

Inductive Compiler : Type := BaseCompiler | SCSSCompiler | ES6Compiler.

Definition dquote : string := String (ascii_of_nat 34) EmptyString.

(** The class attribute [command] of [SCSSCompiler]. *)
Definition SCSS_command : string :=
  "node-sass --output-style expanded {paths} {infile} {outfile} && " +:+
  "postcss --use autoprefixer --autoprefixer.browsers " +:+ dquote +:+
  "ie >= 9, > 5%" +:+ dquote +:+ " -r {outfile}".

(** The class attribute [command] of [ES6Compiler]. *)
Definition ES6_command : string :=
  "export NODE_PATH={paths} && " +:+
  "browserify " +:+ dquote +:+ "{infile}" +:+ dquote +:+ " -o " +:+
  dquote +:+ "{outfile}" +:+ dquote +:+ " --no-bundle-external --node " +:+
  "-t [ {node_modules}/babelify --presets={node_modules}/babel-preset-es2015 ]".

(** The class attribute [command]; [BaseCompiler] defines none. *)
Definition command_of (cls : Compiler) : option string :=
  match cls with
  | BaseCompiler => None
  | SCSSCompiler => Some SCSS_command
  | ES6Compiler => Some ES6_command
  end.

(** The class attribute [infile_ext]. *)
Definition infile_ext (cls : Compiler) : string :=
  match cls with
  | BaseCompiler => ""
  | SCSSCompiler => ".scss"
  | ES6Compiler => ".js"
  end.

(** The attributes of a filter instance that this package reads or writes. *)
Record Job : Type := {
  cls : Compiler;
  content : string;
  command : string;
  filename : option string;
  infile : option TempFile;
  options : list (string * string);
  default_encoding : string
}.

Definition set_infile (f : TempFile) (job : Job) : Job :=
  {| cls := cls job; content := content job; command := command job;
     filename := filename job; infile := Some f; options := options job;
     default_encoding := default_encoding job |}.

Definition add_options (extra : list (string * string)) (job : Job) : Job :=
  {| cls := cls job; content := content job; command := command job;
     filename := filename job; infile := infile job;
     options := (options job ++ extra)%list;
     default_encoding := default_encoding job |}.

(** A method of a job runs on the job and the file system, changes both,
    and returns or raises; what it changed before raising stays changed. *)
Record State : Type := { self : Job; disk : FS }.

Definition M (A : Type) : Type := State → result A * State.

Global Instance M_ret : MRet M := λ _ a st, (Ok a, st).

Global Instance M_bind : MBind M := λ _ _ k m st,
  match m st with
  | (Ok a, st') => k a st'
  | (Raise e, st') => (Raise e, st')
  end.

Definition lift {A : Type} (r : result A) : M A := λ st, (r, st).

Definition get_self : M Job := λ st, (Ok (self st), st).

Definition modify_self (f : Job → Job) : M unit :=
  λ st, (Ok tt, {| self := f (self st); disk := disk st |}).

Definition is_none {A : Type} (o : option A) : bool :=
  match o with
  | None => true
  | Some _ => false
  end.

(** [s.endswith(c)] for a character [c]. *)
Fixpoint last_is (c : ascii) (s : string) : bool :=
  match s with
  | EmptyString => false
  | String c' EmptyString => Ascii.eqb c' c
  | String _ rest => last_is c rest
  end.

(** [posixpath.join(a, b)]. *)
Definition path_join (a b : string) : string :=
  if String.prefix "/" b then b
  else if bool_decide (a = "") || last_is "/" a then a +:+ b
  else a +:+ "/" +:+ b.

Section methods.
Context `{Runtime}.

(** The path of the temporary file whose random part is [rnd]. *)
Definition tmp_path (rnd suffix : string) : string :=
  path_join tmpdir ("tmp" +:+ rnd +:+ suffix).

(** The first candidate whose path is not taken; the file is opened with
    [O_EXCL], so a path that exists is skipped. *)
Fixpoint first_free (fs : FS) (suffix : string) (candidates : list string)
  : result string :=
  match candidates with
  | [] => Raise FileExistsError
  | rnd :: rest =>
      let file := tmp_path rnd suffix in
      if bool_decide (is_Some (fs !! file)) then first_free fs suffix rest
      else Ok file
  end.

(** [NamedTemporaryFile(mode='wb', suffix=suffix)] where it is
    [tempfile.NamedTemporaryFile]: at most [TMP_MAX] candidates are tried,
    and the file is created empty. *)
Definition NamedTemporaryFile (suffix : string) : M TempFile := λ st,
  match first_free (disk st) suffix (take TMP_MAX tmp_names) with
  | Ok file =>
      (Ok {| name := file; pending := [] |},
       {| self := self st; disk := <[file := []]> (disk st) |})
  | Raise e => (Raise e, st)
  end.

(** [self.infile.write(data)] and [self.infile.flush()]. *)
Definition infile_write (data : list byte) : M unit := λ st,
  match infile (self st) with
  | Some f => (Ok tt, {| self := set_infile (write f data) (self st);
                         disk := disk st |})
  | None => (Raise (AttributeError "write"), st)
  end.

Definition infile_flush : M unit := λ st,
  match infile (self st) with
  | Some f =>
      let '(f', fs') := flush f (disk st) in
      (Ok tt, {| self := set_infile f' (self st); disk := fs' |})
  | None => (Raise (AttributeError "flush"), st)
  end.

(** [BaseCompiler.input] up to its last line. *)
Definition prepare_infile : M unit :=
  job ← get_self;
  if is_none (infile job) && str_in "{infile}" (command job) then
    if is_none (filename job) then
      f ← NamedTemporaryFile (infile_ext (cls job));
      _ ← modify_self (set_infile f);
      data ← lift (encode (default_encoding job) (content job));
      _ ← infile_write data;
      _ ← infile_flush;
      modify_self (add_options [("infile", name f)])
    else mret tt
  else mret tt.

(** [BaseCompiler.input]; [super_input] is the inherited method
    [CompilerFilter.input], which the last line calls. *)
Definition input (super_input : M string) : M string :=
  _ ← prepare_infile;
  super_input.

(** ['--include-path {}'.format(s)]. *)
Definition include_path_flag (s : string) : string := "--include-path " +:+ s.

(** The value of the [paths] option in [SCSSCompiler.__init__]. *)
Definition SCSS_paths (static_dirs : gset string) : string :=
  join " " (include_path_flag <$> set_iter static_dirs).

(** The value of the [paths] option in [ES6Compiler.__init__]. *)
Definition ES6_paths (static_dirs : gset string) : string :=
  join pathsep (set_iter static_dirs).

(** [getattr(settings, 'COMPRESS_NODE_MODULES', '/usr/lib/node_modules')]. *)
Definition node_modules (settings : Settings) : string :=
  default "/usr/lib/node_modules" (COMPRESS_NODE_MODULES settings).

(** [self.options += (...)] in [SCSSCompiler.__init__]; [inherited] is the
    value of [self.options] before. *)
Definition SCSSCompiler_options (settings : Settings)
    (inherited : list (string * string)) : result (list (string * string)) :=
  static_dirs ← get_all_static settings;
  mret (inherited ++ [("paths", SCSS_paths static_dirs)])%list.

(** [self.options += (...)] in [ES6Compiler.__init__]. *)
Definition ES6Compiler_options (settings : Settings)
    (inherited : list (string * string)) : result (list (string * string)) :=
  let node_modules := node_modules settings in
  static_dirs ← get_all_static settings;
  mret (inherited ++ [("node_modules", node_modules);
                      ("paths", ES6_paths static_dirs)])%list.
End methods.

(** ** Templates read as text and placeholders

    A template whose replacement fields are plain names is a sequence of
    pieces of literal text (without braces) and placeholders. *)

Inductive piece : Type :=
  | Text (s : string)
  | Hole (name : string).

Fixpoint unparse (ps : list piece) : string :=
  match ps with
  | [] => ""
  | Text s :: rest => s +:+ unparse rest
  | Hole n :: rest => "{" +:+ n +:+ "}" +:+ unparse rest
  end.

(** The template with every placeholder replaced by its value. *)
Fixpoint fill (kwargs : gmap string string) (ps : list piece) : result string :=
  match ps with
  | [] => Ok ""
  | Text s :: rest => String.app s <$> fill kwargs rest
  | Hole n :: rest =>
      v ← field_value kwargs n;
      String.app v <$> fill kwargs rest
  end.

Fixpoint no_brace (s : string) : bool :=
  match s with
  | EmptyString => true
  | String c rest =>
      negb (Ascii.eqb c "{") && negb (Ascii.eqb c "}") && no_brace rest
  end.

Fixpoint plain_name (s : string) : bool :=
  match s with
  | EmptyString => true
  | String c rest =>
      negb (Ascii.eqb c "}") && negb (compound_char c) && plain_name rest
  end.

Definition plain_piece (p : piece) : bool :=
  match p with
  | Text s => no_brace s
  | Hole n => plain_name n
  end.

Definition holes (ps : list piece) : list string :=
  omap (λ p, match p with Hole n => Some n | Text _ => None end) ps.

Definition SCSS_pieces : list piece :=
  [Text "node-sass --output-style expanded "; Hole "paths"; Text " ";
   Hole "infile"; Text " "; Hole "outfile";
   Text (" && postcss --use autoprefixer --autoprefixer.browsers " +:+ dquote
         +:+ "ie >= 9, > 5%" +:+ dquote +:+ " -r ");
   Hole "outfile"].

Definition ES6_pieces : list piece :=
  [Text "export NODE_PATH="; Hole "paths";
   Text (" && browserify " +:+ dquote); Hole "infile";
   Text (dquote +:+ " -o " +:+ dquote); Hole "outfile";
   Text (dquote +:+ " --no-bundle-external --node -t [ ");
   Hole "node_modules"; Text "/babelify --presets="; Hole "node_modules";
   Text "/babel-preset-es2015 ]"].

(** ** What the properties below speak of *)

(** [f] exposes a storage backend whose root is [p]. *)
Definition exposes (f : Finder) (p : string) : Prop :=
  (∃ m k st, storages f = Some m ∧ m !! k = Some st ∧ location st = p) ∨
  (∃ st, storage f = Some st ∧ location st = p).

(** The roots of the backends of [f], one entry per backend. *)
Definition roots_of (f : Finder) : list string :=
  (match storages f with
   | Some m => location <$> (map_to_list m).*2
   | None => []
   end ++
   match storage f with
   | Some st => [location st]
   | None => []
   end)%list.

(** Every identifier of [ids] resolves, to the finders [fs] in order. *)
Definition resolves `{Runtime} (ids : list string) (fs : list Finder) : Prop :=
  Forall2 (λ id f, get_finder id = Ok f) ids fs.

(** A small installation on which the properties are tried: two finders
    that share the root [/a/static], a finder without storage, and
    identifiers that do not resolve. *)

Definition demo_get_finder (id : string) : result Finder :=
  if bool_decide (id = "apps") then
    Ok {| storages := Some {[ "a" := {| location := "/a/static" |};
                              "b" := {| location := "/b/static" |} ]};
          storage := None |}
  else if bool_decide (id = "files") then
    Ok {| storages := None; storage := Some {| location := "/a/static" |} |}
  else if bool_decide (id = "bare") then
    Ok {| storages := None; storage := None |}
  else Raise (ImproperlyConfigured id).

Definition demo_encode (codec text : string) : result (list byte) :=
  if bool_decide (codec = "utf-8") then Ok (String.list_byte_of_string text)
  else Raise (LookupError codec).

Definition demo_runtime : Runtime :=
  {| get_finder := demo_get_finder;
     set_iter := elements;
     pathsep := ":";
     encode := demo_encode;
     tmpdir := "/tmp";
     tmp_names := ["k3x9"; "q7w2"];
     TMP_MAX := 100 * 100 |}.

(** A platform that tries two names only, where a third would be free. *)
Definition crowded_runtime : Runtime :=
  {| get_finder := demo_get_finder;
     set_iter := elements;
     pathsep := ":";
     encode := demo_encode;
     tmpdir := "/tmp";
     tmp_names := ["k3x9"; "q7w2"; "z5m1"];
     TMP_MAX := 2 |}.

Definition demo_settings (ids : list string) : Settings :=
  {| STATICFILES_FINDERS := ids; COMPRESS_NODE_MODULES := None |}.

Definition demo_job (cls : Compiler) (command : string) : Job :=
  {| cls := cls; content := "body{color:red}"; command := command;
     filename := None; infile := None; options := [];
     default_encoding := "utf-8" |}.

(** The job after [input] has prepared the temporary file [path]. *)
Definition with_infile (path : string) (job : Job) : Job :=
  {| cls := cls job; content := content job; command := command job;
     filename := filename job;
     infile := Some {| name := path; pending := [] |};
     options := (options job ++ [("infile", path)])%list;
     default_encoding := default_encoding job |}.

(** The command lines that the two templates stand for. *)
Definition SCSS_command_line (paths infile outfile : string) : string :=
  "node-sass --output-style expanded " +:+ paths +:+ " " +:+ infile +:+ " "
  +:+ outfile +:+ " && postcss --use autoprefixer --autoprefixer.browsers "
  +:+ dquote +:+ "ie >= 9, > 5%" +:+ dquote +:+ " -r " +:+ outfile.

Definition ES6_command_line (paths infile outfile node_modules : string)
  : string :=
  "export NODE_PATH=" +:+ paths +:+ " && browserify " +:+ dquote +:+ infile
  +:+ dquote +:+ " -o " +:+ dquote +:+ outfile +:+ dquote
  +:+ " --no-bundle-external --node -t [ " +:+ node_modules
  +:+ "/babelify --presets=" +:+ node_modules +:+ "/babel-preset-es2015 ]".

(** * Properties *)

(** ** Strings *)

Lemma str_app_cons (x : ascii) (a b : string) :
  String x a +:+ b = String x (a +:+ b).
Proof. reflexivity. Qed.

Lemma str_app_nil (b : string) : "" +:+ b = b.
Proof. reflexivity. Qed.

Lemma str_app_assoc (a b c : string) : (a +:+ b) +:+ c = a +:+ b +:+ c.
Proof.
  induction a as [|x a IH]; [done |]. by rewrite !str_app_cons, IH.
Qed.

Lemma str_app_empty_r (a : string) : a +:+ "" = a.
Proof.
  induction a as [|x a IH]; [done |]. by rewrite str_app_cons, IH.
Qed.

Lemma contains_refl (s : string) : contains s s.
Proof. exists "", "". by rewrite str_app_empty_r. Qed.

Lemma contains_app_l (n a b : string) : contains n a → contains n (a +:+ b).
Proof.
  intros (pre & post & ->). exists pre, (post +:+ b).
  by rewrite !str_app_assoc.
Qed.

Lemma contains_app_r (n a b : string) : contains n b → contains n (a +:+ b).
Proof.
  intros (pre & post & ->). exists (a +:+ pre), post.
  by rewrite !str_app_assoc.
Qed.

Lemma prefix_app (a b : string) : String.prefix a (a +:+ b) = true.
Proof.
  induction a as [|x a IH]; [by destruct b |].
  rewrite str_app_cons. simpl.
  destruct (ascii_dec x x); [done | congruence].
Qed.

Lemma prefix_inv (a b : string) :
  String.prefix a b = true → ∃ post, b = a +:+ post.
Proof.
  revert b. induction a as [|x a IH]; intros b Hp.
  - by exists b.
  - destruct b as [|y b]; simpl in Hp; [done |].
    destruct (ascii_dec x y) as [->|]; [|done].
    destruct (IH _ Hp) as [post ->]. by exists post.
Qed.

Lemma str_in_contains (needle hay : string) :
  str_in needle hay = true ↔ contains needle hay.
Proof.
  split.
  - induction hay as [|c hay IH]; intros Hin; cbn [str_in] in Hin.
    + rewrite orb_false_r in Hin. destruct (prefix_inv _ _ Hin) as [post ->].
      by exists "", post.
    + apply orb_true_iff in Hin as [Hp | Hin].
      * destruct (prefix_inv _ _ Hp) as [post ->]. by exists "", post.
      * destruct (IH Hin) as (pre & post & ->). by exists (String c pre), post.
  - intros (pre & post & ->). induction pre as [|c pre IH].
    + rewrite str_app_nil.
      destruct (needle +:+ post) eqn:E; cbn [str_in];
        rewrite <-E, prefix_app; done.
    + rewrite str_app_cons. cbn [str_in]. rewrite IH. apply orb_true_r.
Qed.

Lemma join_cons (sep x : string) (l : list string) :
  join sep (x :: l) = if bool_decide (l = []) then x else x +:+ sep +:+ join sep l.
Proof. by destruct l. Qed.

Lemma join_contains (sep x : string) (l : list string) :
  x ∈ l → contains x (join sep l).
Proof.
  induction l as [|y l IH]; [by intros ?%elem_of_nil |].
  rewrite join_cons. intros [->|Hx]%elem_of_cons.
  - case_bool_decide; [apply contains_refl |].
    apply contains_app_l, contains_refl.
  - case_bool_decide as Hl; [subst; by apply elem_of_nil in Hx |].
    by apply contains_app_r, contains_app_r, IH.
Qed.

(** ** [str.format] on plain templates *)

Lemma fmap_app_nil (r : result string) : String.app "" <$> r = r.
Proof. by destruct r. Qed.

Lemma fmap_app_cons (c : ascii) (s : string) (r : result string) :
  String c <$> (String.app s <$> r) = String.app (String c s) <$> r.
Proof. by destruct r. Qed.

Lemma format_text (kwargs : gmap string string) (s rest : string) :
  no_brace s = true →
  format_from kwargs None (s +:+ rest)
  = String.app s <$> format_from kwargs None rest.
Proof.
  induction s as [|c s IH]; intros Hs.
  - by rewrite str_app_nil, fmap_app_nil.
  - cbn [no_brace] in Hs.
    apply andb_true_iff in Hs as [[Ho Hc]%andb_true_iff Hs].
    apply negb_true_iff in Ho, Hc.
    rewrite str_app_cons. cbn [format_from]. rewrite Ho, Hc.
    by rewrite IH, fmap_app_cons.
Qed.

Lemma compound_char_open (c : ascii) :
  compound_char c = false → Ascii.eqb c "{" = false.
Proof.
  unfold compound_char. intros Hc%bool_decide_eq_false.
  apply Ascii.eqb_neq. intros ->. apply Hc. set_solver.
Qed.

Lemma format_name (kwargs : gmap string string) (acc n rest : string) :
  plain_name n = true →
  format_from kwargs (Some acc) (n +:+ "}" +:+ rest)
  = (v ← field_value kwargs (acc +:+ n);
     String.app v <$> format_from kwargs None rest).
Proof.
  revert acc. induction n as [|c n IH]; intros acc Hn.
  - by rewrite str_app_nil, str_app_empty_r.
  - cbn [plain_name] in Hn.
    apply andb_true_iff in Hn as [[Hc Hk]%andb_true_iff Hn].
    apply negb_true_iff in Hc, Hk.
    rewrite str_app_cons. cbn [format_from]. rewrite Hc, Hk.
    rewrite IH by done. by rewrite str_app_assoc.
Qed.

Lemma format_hole (kwargs : gmap string string) (n rest : string) :
  plain_name n = true →
  format_from kwargs None ("{" +:+ n +:+ "}" +:+ rest)
  = (v ← field_value kwargs n;
     String.app v <$> format_from kwargs None rest).
Proof.
  intros Hn. pose proof (format_name kwargs "" n rest Hn) as Hf.
  rewrite str_app_nil in Hf. rewrite <-Hf.
  destruct n as [|c n]; [done |].
  cbn [plain_name] in Hn.
  apply andb_true_iff in Hn as [[_ Hk]%andb_true_iff _].
  apply negb_true_iff, compound_char_open in Hk.
  rewrite !str_app_cons, str_app_nil. cbn [format_from].
  rewrite Hk. by rewrite Ascii.eqb_refl.
Qed.

Lemma format_pieces (kwargs : gmap string string) (ps : list piece) :
  forallb plain_piece ps = true →
  str_format (unparse ps) kwargs = fill kwargs ps.
Proof.
  unfold str_format. induction ps as [|[s|n] ps IH]; intros Hps; [done | |].
  - cbn [forallb plain_piece] in Hps. apply andb_true_iff in Hps as [Hs Hps].
    cbn [unparse fill]. by rewrite format_text, IH.
  - cbn [forallb plain_piece] in Hps. apply andb_true_iff in Hps as [Hn Hps].
    cbn [unparse fill]. by rewrite format_hole, IH.
Qed.

Lemma SCSS_command_pieces : SCSS_command = unparse SCSS_pieces.
Proof. reflexivity. Qed.

Lemma ES6_command_pieces : ES6_command = unparse ES6_pieces.
Proof. reflexivity. Qed.

Lemma field_value_lookup (kwargs : gmap string string) (n v : string) :
  kwargs !! n = Some v → all_digits n = false → field_value kwargs n = Ok v.
Proof. unfold field_value. by intros -> ->. Qed.

(** The command of the style-sheet compiler with its three placeholders
    filled. *)
Lemma SCSS_format (kwargs : gmap string string) (p i o : string) :
  kwargs !! "paths" = Some p →
  kwargs !! "infile" = Some i →
  kwargs !! "outfile" = Some o →
  str_format SCSS_command kwargs
  = Ok ("node-sass --output-style expanded " +:+ p +:+ " " +:+ i +:+ " "
        +:+ o +:+ " && postcss --use autoprefixer --autoprefixer.browsers "
        +:+ dquote +:+ "ie >= 9, > 5%" +:+ dquote +:+ " -r " +:+ o).
Proof.
  intros Hp Hi Ho. rewrite SCSS_command_pieces, format_pieces by done.
  cbn [fill SCSS_pieces].
  rewrite (field_value_lookup _ _ _ Hp), (field_value_lookup _ _ _ Hi),
    (field_value_lookup _ _ _ Ho) by done.
  cbn [mbind result_bind fmap result_fmap].
  by rewrite str_app_empty_r, ?str_app_assoc.
Qed.

(** The command of the module compiler with its placeholders filled. *)
Lemma ES6_format (kwargs : gmap string string) (p i o nm : string) :
  kwargs !! "paths" = Some p →
  kwargs !! "infile" = Some i →
  kwargs !! "outfile" = Some o →
  kwargs !! "node_modules" = Some nm →
  str_format ES6_command kwargs
  = Ok ("export NODE_PATH=" +:+ p +:+ " && browserify " +:+ dquote +:+ i
        +:+ dquote +:+ " -o " +:+ dquote +:+ o +:+ dquote
        +:+ " --no-bundle-external --node -t [ " +:+ nm
        +:+ "/babelify --presets=" +:+ nm +:+ "/babel-preset-es2015 ]").
Proof.
  intros Hp Hi Ho Hn. rewrite ES6_command_pieces, format_pieces by done.
  cbn [fill ES6_pieces].
  rewrite (field_value_lookup _ _ _ Hp), (field_value_lookup _ _ _ Hi),
    (field_value_lookup _ _ _ Ho), (field_value_lookup _ _ _ Hn) by done.
  cbn [mbind result_bind fmap result_fmap].
  by rewrite ?str_app_assoc.
Qed.

Lemma field_value_inv (kwargs : gmap string string) (n v : string) :
  field_value kwargs n = Ok v → kwargs !! n = Some v.
Proof.
  unfold field_value. destruct (all_digits n); [done |].
  destruct (kwargs !! n); [by intros [= ->] | done].
Qed.

(** A filled template has found a value for each of its placeholders. *)
Lemma fill_ok_holes (kwargs : gmap string string) (ps : list piece) (s n : string) :
  fill kwargs ps = Ok s → n ∈ holes ps → is_Some (kwargs !! n).
Proof.
  revert s. induction ps as [|[t|m] ps IH]; intros s Hs Hn.
  - by apply elem_of_nil in Hn.
  - cbn [fill] in Hs. destruct (fill kwargs ps) as [s'|] eqn:E; [|done].
    by eapply IH.
  - cbn [fill] in Hs. destruct (field_value kwargs m) as [v|] eqn:Ev; [|done].
    cbn [mbind result_bind] in Hs.
    destruct (fill kwargs ps) as [s'|] eqn:E; [|done].
    unfold holes in Hn. cbn [omap list_omap] in Hn.
    apply elem_of_cons in Hn as [->|Hn]; [|by eapply IH].
    apply field_value_inv in Ev. by eexists.
Qed.

Lemma SCSS_format_inv (kwargs : gmap string string) (cmd : string) :
  str_format SCSS_command kwargs = Ok cmd →
  ∃ p i o, kwargs !! "paths" = Some p ∧ kwargs !! "infile" = Some i ∧
           kwargs !! "outfile" = Some o.
Proof.
  rewrite SCSS_command_pieces, format_pieces by done. intros Hf.
  destruct (fill_ok_holes _ _ _ "paths" Hf) as [p Hp]; [set_solver |].
  destruct (fill_ok_holes _ _ _ "infile" Hf) as [i Hi]; [set_solver |].
  destruct (fill_ok_holes _ _ _ "outfile" Hf) as [o Ho]; [set_solver |].
  by exists p, i, o.
Qed.

Lemma ES6_format_inv (kwargs : gmap string string) (cmd : string) :
  str_format ES6_command kwargs = Ok cmd →
  ∃ p i o nm, kwargs !! "paths" = Some p ∧ kwargs !! "infile" = Some i ∧
              kwargs !! "outfile" = Some o ∧ kwargs !! "node_modules" = Some nm.
Proof.
  rewrite ES6_command_pieces, format_pieces by done. intros Hf.
  destruct (fill_ok_holes _ _ _ "paths" Hf) as [p Hp]; [set_solver |].
  destruct (fill_ok_holes _ _ _ "infile" Hf) as [i Hi]; [set_solver |].
  destruct (fill_ok_holes _ _ _ "outfile" Hf) as [o Ho]; [set_solver |].
  destruct (fill_ok_holes _ _ _ "node_modules" Hf) as [nm Hn]; [set_solver |].
  by exists p, i, o, nm.
Qed.

(** ** The static roots *)

Section static_roots.
Context `{Runtime}.

Lemma elem_of_add_storages (m : gmap string Storage) (dirs : gset string)
    (p : string) :
  p ∈ add_storages m dirs ↔
  p ∈ dirs ∨ ∃ k st, m !! k = Some st ∧ location st = p.
Proof.
  unfold add_storages.
  assert (∀ (l : list Storage) (d : gset string),
    p ∈ foldl (λ dirs st, set_add (location st) dirs) d l ↔
    p ∈ d ∨ ∃ st, st ∈ l ∧ location st = p) as Hfold.
  { induction l as [|st l IH]; intros d; simpl.
    - split; [by left | intros [?|(? & ?%elem_of_nil & _)]; done].
    - rewrite IH. unfold set_add. split.
      + intros [[->%elem_of_singleton|?]%elem_of_union | (st' & ? & ?)].
        * right. exists st. split; [left | done].
        * by left.
        * right. exists st'. split; [by right | done].
      + intros [? | (st' & [->|?]%elem_of_cons & ?)].
        * left. apply elem_of_union. by right.
        * left. apply elem_of_union. left. by apply elem_of_singleton.
        * right. by exists st'. }
  rewrite Hfold. split; (intros [?|Hex]; [by left | right]).
  - destruct Hex as (st & Hst & ?).
    apply list_elem_of_fmap in Hst as ([k st'] & -> & Hk).
    apply elem_of_map_to_list in Hk. by exists k, st'.
  - destruct Hex as (k & st & Hk & ?). exists st. split; [|done].
    apply list_elem_of_fmap. exists (k, st). split; [done |].
    by apply elem_of_map_to_list.
Qed.

Lemma elem_of_add_finder (f : Finder) (dirs : gset string) (p : string) :
  p ∈ add_finder f dirs ↔ p ∈ dirs ∨ exposes f p.
Proof.
  unfold add_finder, exposes, set_add.
  destruct (storages f) as [m|], (storage f) as [st|];
    rewrite ?elem_of_union, ?elem_of_singleton, ?elem_of_add_storages.
  - split.
    + intros [-> | [? | (k & st' & ? & ?)]]; [right; right | by left | right; left].
      * by exists st.
      * by exists m, k, st'.
    + intros [? | [(m' & k & st' & [= <-] & ? & ?) | (st' & [= <-] & ?)]].
      * right. by left.
      * right. right. by exists k, st'.
      * by left.
  - split.
    + intros [? | (k & st' & ? & ?)]; [by left | right; left].
      by exists m, k, st'.
    + intros [? | [(m' & k & st' & [= <-] & ? & ?) | (st' & [=] & _)]].
      * by left.
      * right. by exists k, st'.
  - split.
    + intros [-> | ?]; [right; right | by left]. by exists st.
    + intros [? | [(m' & k & st' & [=] & _) | (st' & [= <-] & ?)]].
      * by right.
      * by left.
  - split; [by left |].
    by intros [? | [(m' & k & st' & [=] & _) | (st' & [=] & _)]].
Qed.

Lemma exposes_roots_of (f : Finder) (p : string) :
  exposes f p ↔ p ∈ roots_of f.
Proof.
  unfold exposes, roots_of. rewrite elem_of_app.
  assert ((∃ m k st, storages f = Some m ∧ m !! k = Some st ∧ location st = p)
          ↔ p ∈ match storages f with
                | Some m => location <$> (map_to_list m).*2
                | None => []
                end) as ->.
  { destruct (storages f) as [m|].
    - rewrite list_elem_of_fmap. split.
      + intros (m' & k & st & [= <-] & Hk & <-). exists st. split; [done |].
        apply list_elem_of_fmap. exists (k, st). split; [done |].
        by apply elem_of_map_to_list.
      + intros (st & -> & Hst). apply list_elem_of_fmap in Hst.
        destruct Hst as ([k st'] & -> & Hk). apply elem_of_map_to_list in Hk.
        by exists m, k, st'.
    - rewrite elem_of_nil. split; [by intros (? & ? & ? & ? & _) | done]. }
  assert ((∃ st, storage f = Some st ∧ location st = p)
          ↔ p ∈ match storage f with
                | Some st => [location st]
                | None => []
                end) as ->; [|done].
  destruct (storage f) as [st|].
  - rewrite list_elem_of_singleton. split.
    + by intros (st' & [= <-] & <-).
    + intros ->. by exists st.
  - rewrite elem_of_nil. split; [by intros (? & ? & _) | done].
Qed.

(** When every identifier resolves the loop ends, with the set obtained by
    adding the finders one after the other. *)
Lemma collect_resolves (ids : list string) (fs : list Finder)
    (dirs : gset string) :
  resolves ids fs →
  collect ids dirs = Ok (foldl (λ d f, add_finder f d) dirs fs).
Proof.
  intros Hr. revert dirs.
  induction Hr as [|id f ids fs Hid _ IH]; intros dirs; [done |].
  cbn [collect]. rewrite Hid. cbn [mbind result_bind]. apply IH.
Qed.

Lemma elem_of_add_finders (fs : list Finder) (dirs : gset string) (p : string) :
  p ∈ foldl (λ d f, add_finder f d) dirs fs ↔
  p ∈ dirs ∨ ∃ f, f ∈ fs ∧ exposes f p.
Proof.
  revert dirs. induction fs as [|f fs IH]; intros dirs; simpl.
  - split; [by left | intros [?|(? & ?%elem_of_nil & _)]; done].
  - rewrite IH, elem_of_add_finder. split.
    + intros [[?|?] | (f' & ? & ?)]; [by left | right; exists f | right; exists f'];
        (split; [|done]); [left | by right].
    + intros [? | (f' & [->|?]%elem_of_cons & ?)]; [by left; left | by left; right |].
      right. by exists f'.
Qed.

(** The first identifier that does not resolve ends the loop with its
    error. *)
Lemma collect_raise (ids1 ids2 : list string) (id : string) (e : exn)
    (dirs : gset string) :
  Forall (λ i, ∃ f, get_finder i = Ok f) ids1 →
  get_finder id = Raise e →
  collect (ids1 ++ id :: ids2) dirs = Raise e.
Proof.
  intros Hok Hid. revert dirs.
  induction Hok as [|i ids1 [f Hi] _ IH]; intros dirs; cbn [app collect].
  - by rewrite Hid.
  - rewrite Hi. cbn [mbind result_bind]. apply IH.
Qed.
End static_roots.

Lemma get_all_static_resolves `{Runtime} (settings : Settings) (fs : list Finder) :
  resolves (STATICFILES_FINDERS settings) fs →
  get_all_static settings = Ok (foldl (λ d f, add_finder f d) ∅ fs).
Proof. apply collect_resolves. Qed.

Lemma elem_of_get_all_static `{Runtime} (fs : list Finder) (p : string) :
  p ∈ foldl (λ d f, add_finder f d) (∅ : gset string) fs ↔
  ∃ f, f ∈ fs ∧ exposes f p.
Proof.
  rewrite elem_of_add_finders. split; [|by right].
  by intros [?%not_elem_of_empty | ?].
Qed.

(** C1. When the configured identifiers resolve, [get_all_static] returns a
    set that holds a path exactly when some resolved finder exposes a
    storage backend with that root; listed, the set has every such root
    once, however many backends and finders share it. *)
Theorem get_all_static_exact `{Runtime} (settings : Settings) (fs : list Finder) :
  resolves (STATICFILES_FINDERS settings) fs →
  ∃ dirs, get_all_static settings = Ok dirs ∧
    (∀ p, p ∈ dirs ↔ ∃ f, f ∈ fs ∧ exposes f p) ∧
    NoDup (elements dirs) ∧
    elements dirs ≡ₚ remove_dups (fs ≫= roots_of).
Proof.
  intros Hr. eexists. split; [by apply get_all_static_resolves |].
  split; [apply elem_of_get_all_static |].
  split; [apply NoDup_elements |].
  apply NoDup_Permutation; [apply NoDup_elements | apply NoDup_remove_dups |].
  intros p. rewrite elem_of_elements, elem_of_get_all_static.
  rewrite elem_of_remove_dups, list_elem_of_bind.
  split; intros (f & Hf & Hp); exists f.
  - split; [by apply exposes_roots_of | done].
  - split; [done | by apply exposes_roots_of].
Qed.

Lemma get_all_static_exact_witness :
  ∃ dirs, @get_all_static demo_runtime (demo_settings ["apps"; "files"]) = Ok dirs ∧
    (∀ p, p ∈ dirs ↔
          ∃ f, f ∈ [ {| storages := Some {[ "a" := {| location := "/a/static" |};
                                            "b" := {| location := "/b/static" |} ]};
                        storage := None |};
                     {| storages := None;
                        storage := Some {| location := "/a/static" |} |} ]
               ∧ exposes f p) ∧
    NoDup (elements dirs) ∧
    elements dirs ≡ₚ
      remove_dups ([ {| storages := Some {[ "a" := {| location := "/a/static" |};
                                            "b" := {| location := "/b/static" |} ]};
                        storage := None |};
                     {| storages := None;
                        storage := Some {| location := "/a/static" |} |} ]
                   ≫= roots_of).
Proof.
  apply (@get_all_static_exact demo_runtime (demo_settings ["apps"; "files"])).
  repeat constructor.
Defined.

(** C2. Each configured identifier is resolved to a finder. Every backend
    of a [storages] dictionary has its location in the result, and so has
    the backend of a [storage] attribute; whatever is in the result comes
    from one of the two, so a finder with neither adds nothing, and it
    raises nothing: the result is returned. *)
Theorem get_all_static_per_finder `{Runtime} (settings : Settings)
    (fs : list Finder) :
  resolves (STATICFILES_FINDERS settings) fs →
  ∃ dirs, get_all_static settings = Ok dirs ∧
    (∀ f m k st, f ∈ fs → storages f = Some m → m !! k = Some st →
                 location st ∈ dirs) ∧
    (∀ f st, f ∈ fs → storage f = Some st → location st ∈ dirs) ∧
    (∀ p, p ∈ dirs →
          ∃ f, f ∈ fs ∧
               ((∃ m k st, storages f = Some m ∧ m !! k = Some st
                           ∧ location st = p) ∨
                (∃ st, storage f = Some st ∧ location st = p))) ∧
    (∀ f d, storages f = None → storage f = None → add_finder f d = d).
Proof.
  intros Hr. eexists. split; [by apply get_all_static_resolves |].
  repeat split.
  - intros f m k st Hf Hm Hk. apply elem_of_get_all_static.
    exists f. split; [done |]. left. by exists m, k, st.
  - intros f st Hf Hst. apply elem_of_get_all_static.
    exists f. split; [done |]. right. by exists st.
  - intros p Hp. by apply elem_of_get_all_static in Hp.
  - intros f d Hm Hst. unfold add_finder. by rewrite Hm, Hst.
Qed.

Lemma get_all_static_per_finder_witness :
  ∃ dirs, @get_all_static demo_runtime (demo_settings ["bare"; "files"]) = Ok dirs ∧
    (∀ f m k st, f ∈ [ {| storages := None; storage := None |};
                       {| storages := None;
                          storage := Some {| location := "/a/static" |} |} ] →
                 storages f = Some m → m !! k = Some st → location st ∈ dirs) ∧
    (∀ f st, f ∈ [ {| storages := None; storage := None |};
                   {| storages := None;
                      storage := Some {| location := "/a/static" |} |} ] →
             storage f = Some st → location st ∈ dirs) ∧
    (∀ p, p ∈ dirs →
          ∃ f, f ∈ [ {| storages := None; storage := None |};
                     {| storages := None;
                        storage := Some {| location := "/a/static" |} |} ] ∧
               ((∃ m k st, storages f = Some m ∧ m !! k = Some st
                           ∧ location st = p) ∨
                (∃ st, storage f = Some st ∧ location st = p))) ∧
    (∀ f d, storages f = None → storage f = None →
            @add_finder f d = d).
Proof.
  apply (@get_all_static_per_finder demo_runtime (demo_settings ["bare"; "files"])).
  repeat constructor.
Defined.

Lemma collect_some_raise `{Runtime} (ids : list string) (id : string) (e : exn) :
  id ∈ ids → get_finder id = Raise e →
  ∃ id' e', id' ∈ ids ∧ get_finder id' = Raise e' ∧
            ∀ dirs, collect ids dirs = Raise e'.
Proof.
  intros Hin Hid. induction ids as [|i ids IH]; [by apply elem_of_nil in Hin |].
  destruct (get_finder i) as [f|e0] eqn:Hi.
  - apply elem_of_cons in Hin as [->|Hin]; [congruence |].
    destruct (IH Hin) as (id' & e' & Hin' & Hid' & Hc).
    exists id', e'. split; [by right |]. split; [done |].
    intros dirs. cbn [collect]. rewrite Hi. apply Hc.
  - exists i, e0. split; [left |]. split; [done |].
    intros dirs. cbn [collect]. by rewrite Hi.
Qed.

(** A result is returned only when every identifier has resolved. *)
Lemma get_all_static_ok_resolves `{Runtime} (settings : Settings)
    (dirs : gset string) :
  get_all_static settings = Ok dirs →
  ∃ fs, resolves (STATICFILES_FINDERS settings) fs.
Proof.
  unfold get_all_static, resolves. generalize (∅ : gset string).
  induction (STATICFILES_FINDERS settings) as [|id ids IH]; intros d Hc.
  - by exists [].
  - cbn [collect] in Hc. destruct (get_finder id) as [f|e] eqn:Hid; [|done].
    destruct (IH _ Hc) as [fs Hfs]. exists (f :: fs). by constructor.
Qed.

(** C9. When a configured identifier does not resolve, [get_all_static]
    raises: the error is that of the first identifier that fails, nothing
    is skipped, and both constructors raise it in turn. *)
Theorem get_all_static_propagates `{Runtime} (settings : Settings) (id : string)
    (e : exn) :
  id ∈ STATICFILES_FINDERS settings →
  get_finder id = Raise e →
  ∃ id' e', id' ∈ STATICFILES_FINDERS settings ∧ get_finder id' = Raise e' ∧
    get_all_static settings = Raise e' ∧
    (∀ inherited, SCSSCompiler_options settings inherited = Raise e') ∧
    (∀ inherited, ES6Compiler_options settings inherited = Raise e').
Proof.
  intros Hin Hid.
  destruct (collect_some_raise _ _ _ Hin Hid) as (id' & e' & Hin' & Hid' & Hc).
  exists id', e'. unfold SCSSCompiler_options, ES6Compiler_options, get_all_static.
  by rewrite Hc.
Qed.

Lemma get_all_static_propagates_witness :
  ∃ id' e', id' ∈ ["files"; "missing"; "apps"] ∧
    demo_get_finder id' = Raise e' ∧
    @get_all_static demo_runtime (demo_settings ["files"; "missing"; "apps"])
    = Raise e' ∧
    (∀ inherited,
       @SCSSCompiler_options demo_runtime
         (demo_settings ["files"; "missing"; "apps"]) inherited = Raise e') ∧
    (∀ inherited,
       @ES6Compiler_options demo_runtime
         (demo_settings ["files"; "missing"; "apps"]) inherited = Raise e').
Proof.
  apply (@get_all_static_propagates demo_runtime
           (demo_settings ["files"; "missing"; "apps"]) "missing"
           (ImproperlyConfigured "missing")).
  - right. left.
  - reflexivity.
Defined.

(** ** The option values *)

Lemma dict_snoc (options : list (string * string)) (k v : string) :
  dict (options ++ [(k, v)]) = <[k := v]> (dict options).
Proof. unfold dict. by rewrite foldl_app. Qed.

Lemma dict_app_other (options extra : list (string * string)) (k : string) :
  k ∉ extra.*1 → dict (options ++ extra) !! k = dict options !! k.
Proof.
  unfold dict. rewrite foldl_app.
  generalize (foldl (λ (d : gmap string string) kv, <[kv.1 := kv.2]> d) ∅ options).
  induction extra as [|[k' v'] extra IH]; intros d Hk; [done |].
  cbn [foldl fst snd]. rewrite IH; [|by intros ?; apply Hk; right].
  apply lookup_insert_ne. intros ->. apply Hk. left.
Qed.

Lemma set_iter_empty `{Runtime} :
  (∀ s, set_iter s ≡ₚ elements s) → set_iter ∅ = [].
Proof.
  intros Hiter. apply Permutation_nil_r. by rewrite Hiter, elements_empty.
Qed.

Lemma elem_of_set_iter `{Runtime} (s : gset string) (p : string) :
  (∀ s, set_iter s ≡ₚ elements s) → p ∈ set_iter s ↔ p ∈ s.
Proof. intros Hiter. by rewrite Hiter, elem_of_elements. Qed.

Lemma set_iter_pair `{Runtime} (a b : string) :
  (∀ s, set_iter s ≡ₚ elements s) → a ≠ b →
  set_iter {[a; b]} = [a; b] ∨ set_iter {[a; b]} = [b; a].
Proof.
  intros Hiter Hab. apply Permutation_length_2_inv.
  rewrite Hiter. rewrite elements_union_singleton by by rewrite not_elem_of_singleton.
  by rewrite elements_singleton.
Qed.

Lemma no_exposure_empty `{Runtime} (fs : list Finder) :
  (∀ f p, f ∈ fs → ¬ exposes f p) →
  foldl (λ d f, add_finder f d) (∅ : gset string) fs = ∅.
Proof.
  intros Hno. apply set_eq. intros p. rewrite elem_of_get_all_static.
  split; [|by intros ?%not_elem_of_empty].
  intros (f & Hf & Hp). by destruct (Hno f p).
Qed.

Lemma SCSS_options_paths (inherited : list (string * string)) (v : string) :
  dict (inherited ++ [("paths", v)]) !! "paths" = Some v.
Proof. rewrite dict_snoc. apply lookup_insert_eq. Qed.

Lemma ES6_options_paths (inherited : list (string * string)) (nm v : string) :
  dict (inherited ++ [("node_modules", nm); ("paths", v)]) !! "paths" = Some v.
Proof.
  change (inherited ++ [("node_modules", nm); ("paths", v)])%list
    with (inherited ++ [("node_modules", nm)] ++ [("paths", v)])%list.
  rewrite (assoc_L (++))%list, dict_snoc. apply lookup_insert_eq.
Qed.

Lemma ES6_options_node_modules (inherited : list (string * string)) (nm v : string) :
  dict (inherited ++ [("node_modules", nm); ("paths", v)]) !! "node_modules"
  = Some nm.
Proof.
  change (inherited ++ [("node_modules", nm); ("paths", v)])%list
    with (inherited ++ [("node_modules", nm)] ++ [("paths", v)])%list.
  rewrite (assoc_L (++))%list, !dict_snoc.
  rewrite lookup_insert_ne by done. apply lookup_insert_eq.
Qed.

Lemma SCSS_command_has_paths (kwargs : gmap string string) (cmd v : string) :
  kwargs !! "paths" = Some v →
  str_format SCSS_command kwargs = Ok cmd →
  ∃ pre post, cmd = pre +:+ v +:+ post.
Proof.
  intros Hp Hf. destruct (SCSS_format_inv _ _ Hf) as (p & i & o & Hp' & Hi & Ho).
  rewrite (SCSS_format _ _ _ _ Hp' Hi Ho) in Hf. injection Hf as <-.
  assert (p = v) as -> by congruence. by eexists _, _.
Qed.

(** C4. The [paths] option of the style-sheet compiler is the roots, in
    the order in which the set yields them, each written as
    [--include-path <dir>], joined by single spaces. Every root therefore
    has its flag in the option value. With that value, an input file and an
    output file, the template formats to a command line, the one with the
    value after [--output-style expanded], and every root has its flag in
    it; for the roots [/a/static] and [/b/static] the value is the two
    flags in one order or the other, and the command has both. *)
Theorem SCSS_paths_flags `{Runtime} (settings : Settings) (dirs : gset string)
    (inherited : list (string * string)) :
  (∀ s, set_iter s ≡ₚ elements s) →
  get_all_static settings = Ok dirs →
  ∃ opts v,
    SCSSCompiler_options settings inherited = Ok opts ∧
    dict opts !! "paths" = Some v ∧
    (∀ later, "paths" ∉ later.*1 → dict (opts ++ later) !! "paths" = Some v) ∧
    v = join " " ((λ s, "--include-path " +:+ s) <$> set_iter dirs) ∧
    set_iter dirs ≡ₚ elements dirs ∧
    (∀ root, root ∈ dirs → contains ("--include-path " +:+ root) v) ∧
    (∀ kwargs i o,
       kwargs !! "paths" = Some v → kwargs !! "infile" = Some i →
       kwargs !! "outfile" = Some o →
       str_format SCSS_command kwargs = Ok (SCSS_command_line v i o) ∧
       ∀ root, root ∈ dirs →
               contains ("--include-path " +:+ root) (SCSS_command_line v i o)) ∧
    (∀ root kwargs cmd,
       root ∈ dirs → kwargs !! "paths" = Some v →
       str_format SCSS_command kwargs = Ok cmd →
       contains ("--include-path " +:+ root) cmd) ∧
    (dirs = {[ "/a/static"; "/b/static" ]} →
       (v = "--include-path /a/static --include-path /b/static" ∨
        v = "--include-path /b/static --include-path /a/static") ∧
       ∀ kwargs i o,
         kwargs !! "paths" = Some v → kwargs !! "infile" = Some i →
         kwargs !! "outfile" = Some o →
         ∃ cmd, str_format SCSS_command kwargs = Ok cmd ∧
                contains "--include-path /a/static" cmd ∧
                contains "--include-path /b/static" cmd).
Proof.
  intros Hiter Hdirs. unfold SCSSCompiler_options. rewrite Hdirs.
  cbn [mbind result_bind mret result_ret]. eexists _, _.
  split; [done |]. split; [apply SCSS_options_paths |].
  split; [intros later Hk; rewrite dict_app_other by done;
          apply SCSS_options_paths |].
  split; [done |]. split; [apply Hiter |].
  assert (∀ root, root ∈ dirs →
            contains ("--include-path " +:+ root) (SCSS_paths dirs)) as Hflag.
  { intros root Hroot. apply join_contains.
    apply (list_elem_of_fmap_2 include_path_flag).
    by apply elem_of_set_iter. }
  assert (∀ i o root, root ∈ dirs →
            contains ("--include-path " +:+ root)
                     (SCSS_command_line (SCSS_paths dirs) i o)) as Hline.
  { intros i o root Hroot. unfold SCSS_command_line.
    by apply contains_app_r, contains_app_l, Hflag. }
  split; [done |]. split; [|split].
  - intros kwargs i o Hp Hi Ho. split; [by apply SCSS_format |].
    intros root Hroot. by apply Hline.
  - intros root kwargs cmd Hroot Hp Hf.
    destruct (SCSS_command_has_paths _ _ _ Hp Hf) as (pre & post & ->).
    by apply contains_app_r, contains_app_l, Hflag.
  - intros Hab. split.
    + rewrite Hab. unfold SCSS_paths.
      destruct (set_iter_pair "/a/static" "/b/static" Hiter) as [-> | ->];
        [done | by left | by right].
    + intros kwargs i o Hp Hi Ho. eexists. split; [by apply SCSS_format |].
      split.
      * apply (Hline i o "/a/static"). rewrite Hab.
        apply elem_of_union. left. by apply elem_of_singleton.
      * apply (Hline i o "/b/static"). rewrite Hab.
        apply elem_of_union. right. by apply elem_of_singleton.
Qed.

Lemma SCSS_paths_flags_witness :
  ∃ opts v,
    @SCSSCompiler_options demo_runtime (demo_settings ["apps"]) [] = Ok opts ∧
    dict opts !! "paths" = Some v ∧
    (∀ later, "paths" ∉ later.*1 → dict (opts ++ later) !! "paths" = Some v) ∧
    v = join " " ((λ s, "--include-path " +:+ s)
                  <$> @set_iter demo_runtime {[ "/a/static"; "/b/static" ]}) ∧
    @set_iter demo_runtime {[ "/a/static"; "/b/static" ]}
      ≡ₚ elements ({[ "/a/static"; "/b/static" ]} : gset string) ∧
    (∀ root, root ∈ ({[ "/a/static"; "/b/static" ]} : gset string) →
             contains ("--include-path " +:+ root) v) ∧
    (∀ kwargs i o,
       kwargs !! "paths" = Some v → kwargs !! "infile" = Some i →
       kwargs !! "outfile" = Some o →
       str_format SCSS_command kwargs = Ok (SCSS_command_line v i o) ∧
       ∀ root, root ∈ ({[ "/a/static"; "/b/static" ]} : gset string) →
               contains ("--include-path " +:+ root) (SCSS_command_line v i o)) ∧
    (∀ root kwargs cmd,
       root ∈ ({[ "/a/static"; "/b/static" ]} : gset string) →
       kwargs !! "paths" = Some v →
       str_format SCSS_command kwargs = Ok cmd →
       contains ("--include-path " +:+ root) cmd) ∧
    (({[ "/a/static"; "/b/static" ]} : gset string)
     = {[ "/a/static"; "/b/static" ]} →
       (v = "--include-path /a/static --include-path /b/static" ∨
        v = "--include-path /b/static --include-path /a/static") ∧
       ∀ kwargs i o,
         kwargs !! "paths" = Some v → kwargs !! "infile" = Some i →
         kwargs !! "outfile" = Some o →
         ∃ cmd, str_format SCSS_command kwargs = Ok cmd ∧
                contains "--include-path /a/static" cmd ∧
                contains "--include-path /b/static" cmd).
Proof.
  apply (@SCSS_paths_flags demo_runtime (demo_settings ["apps"])
           {[ "/a/static"; "/b/static" ]} []).
  - reflexivity.
  - vm_compute. reflexivity.
Defined.

(** C5. The [paths] option of the module compiler is one string: the
    roots, in the order in which the set yields them, joined by
    [os.pathsep]. Every root occurs in it; for the roots [/a/static] and
    [/b/static] it is the two paths with the separator between them, in
    one order or the other. *)
Theorem ES6_paths_joined `{Runtime} (settings : Settings) (dirs : gset string)
    (inherited : list (string * string)) :
  (∀ s, set_iter s ≡ₚ elements s) →
  get_all_static settings = Ok dirs →
  ∃ opts v,
    ES6Compiler_options settings inherited = Ok opts ∧
    dict opts !! "paths" = Some v ∧
    (∀ later, "paths" ∉ later.*1 → dict (opts ++ later) !! "paths" = Some v) ∧
    v = join pathsep (set_iter dirs) ∧
    set_iter dirs ≡ₚ elements dirs ∧
    (∀ root, root ∈ dirs → contains root v) ∧
    (dirs = {[ "/a/static"; "/b/static" ]} →
       v = "/a/static" +:+ pathsep +:+ "/b/static" ∨
       v = "/b/static" +:+ pathsep +:+ "/a/static").
Proof.
  intros Hiter Hdirs. unfold ES6Compiler_options. rewrite Hdirs.
  cbn [mbind result_bind mret result_ret]. eexists _, _.
  split; [done |]. split; [apply ES6_options_paths |].
  split; [intros later Hk; rewrite dict_app_other by done;
          apply ES6_options_paths |].
  split; [done |]. split; [apply Hiter |]. split.
  - intros root Hroot. apply join_contains. by apply elem_of_set_iter.
  - intros ->. unfold ES6_paths.
    destruct (set_iter_pair "/a/static" "/b/static" Hiter) as [-> | ->];
      [done | by left | by right].
Qed.

Lemma ES6_paths_joined_witness :
  ∃ opts v,
    @ES6Compiler_options demo_runtime (demo_settings ["apps"]) [] = Ok opts ∧
    dict opts !! "paths" = Some v ∧
    (∀ later, "paths" ∉ later.*1 → dict (opts ++ later) !! "paths" = Some v) ∧
    v = join (@pathsep demo_runtime)
          (@set_iter demo_runtime {[ "/a/static"; "/b/static" ]}) ∧
    @set_iter demo_runtime {[ "/a/static"; "/b/static" ]}
      ≡ₚ elements ({[ "/a/static"; "/b/static" ]} : gset string) ∧
    (∀ root, root ∈ ({[ "/a/static"; "/b/static" ]} : gset string) →
             contains root v) ∧
    (({[ "/a/static"; "/b/static" ]} : gset string)
     = {[ "/a/static"; "/b/static" ]} →
       v = "/a/static" +:+ @pathsep demo_runtime +:+ "/b/static" ∨
       v = "/b/static" +:+ @pathsep demo_runtime +:+ "/a/static").
Proof.
  apply (@ES6_paths_joined demo_runtime (demo_settings ["apps"])
           {[ "/a/static"; "/b/static" ]} []).
  - reflexivity.
  - vm_compute. reflexivity.
Defined.

(** C6. With no finder configured, or with finders that resolve and expose
    no storage, [get_all_static] returns the empty set. The [paths] option
    is then the empty string for both compilers, and the commands built
    with it have nothing where the placeholder stood: no flag for the
    style-sheet compiler, an empty [NODE_PATH] for the module compiler. *)
Theorem no_roots_empty_paths `{Runtime} (settings : Settings)
    (inherited : list (string * string)) :
  (∀ s, set_iter s ≡ₚ elements s) →
  (STATICFILES_FINDERS settings = [] ∨
   ∃ fs, resolves (STATICFILES_FINDERS settings) fs ∧
         ∀ f p, f ∈ fs → ¬ exposes f p) →
  get_all_static settings = Ok ∅ ∧
  SCSSCompiler_options settings inherited = Ok (inherited ++ [("paths", "")])%list ∧
  ES6Compiler_options settings inherited
  = Ok (inherited ++ [("node_modules", node_modules settings);
                      ("paths", "")])%list ∧
  (∀ kwargs i o,
     kwargs !! "paths" = Some "" → kwargs !! "infile" = Some i →
     kwargs !! "outfile" = Some o →
     str_format SCSS_command kwargs
     = Ok ("node-sass --output-style expanded  " +:+ i +:+ " " +:+ o
           +:+ " && postcss --use autoprefixer --autoprefixer.browsers "
           +:+ dquote +:+ "ie >= 9, > 5%" +:+ dquote +:+ " -r " +:+ o)) ∧
  (∀ kwargs i o nm,
     kwargs !! "paths" = Some "" → kwargs !! "infile" = Some i →
     kwargs !! "outfile" = Some o → kwargs !! "node_modules" = Some nm →
     str_format ES6_command kwargs
     = Ok ("export NODE_PATH= && browserify " +:+ dquote +:+ i +:+ dquote
           +:+ " -o " +:+ dquote +:+ o +:+ dquote
           +:+ " --no-bundle-external --node -t [ " +:+ nm
           +:+ "/babelify --presets=" +:+ nm +:+ "/babel-preset-es2015 ]")).
Proof.
  intros Hiter Hnone.
  assert (get_all_static settings = Ok ∅) as Hdirs.
  { destruct Hnone as [Hids | (fs & Hr & Hno)].
    - unfold get_all_static. by rewrite Hids.
    - rewrite (get_all_static_resolves _ _ Hr). by rewrite no_exposure_empty. }
  split; [done |].
  unfold SCSSCompiler_options, ES6Compiler_options, SCSS_paths, ES6_paths.
  rewrite Hdirs. cbn [mbind result_bind mret result_ret].
  rewrite (set_iter_empty Hiter). repeat split.
  - intros kwargs i o Hp Hi Ho. by rewrite (SCSS_format _ _ _ _ Hp Hi Ho).
  - intros kwargs i o nm Hp Hi Ho Hn. by rewrite (ES6_format _ _ _ _ _ Hp Hi Ho Hn).
Qed.

Lemma no_roots_empty_paths_witness :
  @get_all_static demo_runtime (demo_settings []) = Ok ∅ ∧
  @SCSSCompiler_options demo_runtime (demo_settings []) [] = Ok [("paths", "")] ∧
  @ES6Compiler_options demo_runtime (demo_settings []) []
  = Ok [("node_modules", "/usr/lib/node_modules"); ("paths", "")].
Proof.
  destruct (@no_roots_empty_paths demo_runtime (demo_settings []) [])
    as (Hd & Hs & He & _).
  - reflexivity.
  - left. reflexivity.
  - exact (conj Hd (conj Hs He)).
Defined.

(** C10. The [node_modules] option of the module compiler is set by the
    constructor to the setting [COMPRESS_NODE_MODULES] when there is one
    and to [/usr/lib/node_modules] otherwise, and a command built from the
    template has that value at both places where the template has
    [{node_modules}]. *)
Theorem ES6_node_modules `{Runtime} (settings : Settings) (dirs : gset string)
    (inherited : list (string * string)) :
  get_all_static settings = Ok dirs →
  ∃ opts nm,
    ES6Compiler_options settings inherited = Ok opts ∧
    dict opts !! "node_modules" = Some nm ∧
    (∀ later, "node_modules" ∉ later.*1 →
              dict (opts ++ later) !! "node_modules" = Some nm) ∧
    nm = match COMPRESS_NODE_MODULES settings with
         | Some configured => configured
         | None => "/usr/lib/node_modules"
         end ∧
    (∀ kwargs p i o,
       kwargs !! "node_modules" = Some nm → kwargs !! "paths" = Some p →
       kwargs !! "infile" = Some i → kwargs !! "outfile" = Some o →
       str_format ES6_command kwargs
       = Ok ("export NODE_PATH=" +:+ p +:+ " && browserify " +:+ dquote +:+ i
             +:+ dquote +:+ " -o " +:+ dquote +:+ o +:+ dquote
             +:+ " --no-bundle-external --node -t [ " +:+ nm
             +:+ "/babelify --presets=" +:+ nm +:+ "/babel-preset-es2015 ]")).
Proof.
  intros Hdirs. unfold ES6Compiler_options. rewrite Hdirs.
  cbn [mbind result_bind mret result_ret]. eexists _, _.
  split; [done |]. split; [apply ES6_options_node_modules |].
  split; [intros later Hk; rewrite dict_app_other by done;
          apply ES6_options_node_modules |].
  split; [by unfold node_modules; destruct (COMPRESS_NODE_MODULES settings) |].
  intros kwargs p i o Hn Hp Hi Ho. by apply ES6_format.
Qed.

Lemma ES6_node_modules_witness :
  ∃ opts nm,
    @ES6Compiler_options demo_runtime
      {| STATICFILES_FINDERS := ["files"];
         COMPRESS_NODE_MODULES := Some "/srv/node_modules" |} [] = Ok opts ∧
    dict opts !! "node_modules" = Some nm ∧
    (∀ later, "node_modules" ∉ later.*1 →
              dict (opts ++ later) !! "node_modules" = Some nm) ∧
    nm = "/srv/node_modules" ∧
    (∀ kwargs p i o,
       kwargs !! "node_modules" = Some nm → kwargs !! "paths" = Some p →
       kwargs !! "infile" = Some i → kwargs !! "outfile" = Some o →
       str_format ES6_command kwargs
       = Ok ("export NODE_PATH=" +:+ p +:+ " && browserify " +:+ dquote +:+ i
             +:+ dquote +:+ " -o " +:+ dquote +:+ o +:+ dquote
             +:+ " --no-bundle-external --node -t [ " +:+ nm
             +:+ "/babelify --presets=" +:+ nm +:+ "/babel-preset-es2015 ]")).
Proof.
  apply (@ES6_node_modules demo_runtime
           {| STATICFILES_FINDERS := ["files"];
              COMPRESS_NODE_MODULES := Some "/srv/node_modules" |}
           {[ "/a/static" ]} []).
  vm_compute. reflexivity.
Defined.

(** ** The temporary input file *)

Lemma path_join_endswith (a b suffix : string) :
  endswith (path_join a (b +:+ suffix)) suffix.
Proof.
  unfold path_join, endswith.
  destruct (String.prefix "/" (b +:+ suffix)); [by exists b |].
  destruct (bool_decide (a = "") || last_is "/" a).
  - exists (a +:+ b). by rewrite str_app_assoc.
  - exists (a +:+ "/" +:+ b). by rewrite !str_app_assoc.
Qed.

Lemma tmp_path_endswith `{Runtime} (rnd suffix : string) :
  endswith (tmp_path rnd suffix) suffix.
Proof.
  unfold tmp_path. rewrite <-str_app_assoc. apply path_join_endswith.
Qed.

Lemma first_free_fresh `{Runtime} (fs : FS) (suffix : string)
    (candidates : list string) (path : string) :
  first_free fs suffix candidates = Ok path →
  fs !! path = None ∧ ∃ rnd, rnd ∈ candidates ∧ path = tmp_path rnd suffix.
Proof.
  induction candidates as [|rnd rest IH]; [done |]. cbn [first_free].
  case_bool_decide as Htaken.
  - intros (Hnone & rnd' & Hin & ->)%IH. split; [done |].
    exists rnd'. split; [by right | done].
  - intros [= <-]. split; [by apply eq_None_not_Some |].
    exists rnd. split; [left | done].
Qed.

Lemma first_free_found `{Runtime} (fs : FS) (suffix : string)
    (candidates : list string) (rnd : string) :
  rnd ∈ candidates → fs !! tmp_path rnd suffix = None →
  ∃ path, first_free fs suffix candidates = Ok path.
Proof.
  intros Hin Hfree. induction candidates as [|c rest IH];
    [by apply elem_of_nil in Hin |].
  cbn [first_free]. case_bool_decide as Htaken; [|by eexists].
  apply elem_of_cons in Hin as [->|Hin]; [|by apply IH].
  rewrite Hfree in Htaken. by destruct Htaken.
Qed.

Lemma flush_created (fs : FS) (path : string) (data : list byte) :
  alter (λ on_disk, (on_disk ++ data)%list) path (<[path := []]> fs)
  = <[path := data]> fs.
Proof.
  apply map_eq. intros k. destruct (decide (k = path)) as [->|Hk].
  - by rewrite lookup_alter_eq, !lookup_insert_eq.
  - by rewrite lookup_alter_ne, !lookup_insert_ne.
Qed.

Lemma M_bind_run {A B : Type} (m : M A) (k : A → M B) (st : State) :
  (m ≫= k) st
  = match m st with
    | (Ok a, st') => k a st'
    | (Raise e, st') => (Raise e, st')
    end.
Proof. reflexivity. Qed.

(** C3. When the command has the placeholder [{infile}] and the job has
    neither an input file nor a file name, [input] creates a file that did
    not exist, whose name ends with the extension of the compiler ([.scss]
    for the style-sheet compiler, [.js] for the module compiler); when the
    inherited [input] takes over, the file on disk holds the content encoded
    with the default encoding, nothing is left unflushed, and the pair
    [('infile', path)] is the last of the options. *)
Theorem input_creates_infile `{Runtime} (job : Job) (fs : FS) (rnd : string)
    (data : list byte) (super_input : M string) :
  infile job = None →
  filename job = None →
  str_in "{infile}" (command job) = true →
  rnd ∈ take TMP_MAX tmp_names →
  fs !! tmp_path rnd (infile_ext (cls job)) = None →
  encode (default_encoding job) (content job) = Ok data →
  ∃ path,
    fs !! path = None ∧
    endswith path (infile_ext (cls job)) ∧
    (cls job = SCSSCompiler → endswith path ".scss") ∧
    (cls job = ES6Compiler → endswith path ".js") ∧
    prepare_infile {| self := job; disk := fs |}
    = (Ok tt, {| self := with_infile path job; disk := <[path := data]> fs |}) ∧
    input super_input {| self := job; disk := fs |}
    = super_input {| self := with_infile path job; disk := <[path := data]> fs |}.
Proof.
  intros Hinfile Hname Hcmd Hrnd Hfree Hdata.
  destruct (first_free_found fs _ _ rnd Hrnd Hfree) as [path Hpath].
  destruct (first_free_fresh _ _ _ _ Hpath) as (Hnew & rnd' & _ & Hrnd').
  exists path. split; [done |].
  assert (endswith path (infile_ext (cls job))) as Hext.
  { rewrite Hrnd'. apply tmp_path_endswith. }
  split; [done |]. split; [by intros Hc; rewrite Hc in Hext |].
  split; [by intros Hc; rewrite Hc in Hext |].
  assert (prepare_infile {| self := job; disk := fs |}
          = (Ok tt, {| self := with_infile path job;
                       disk := <[path := data]> fs |})) as Hprep.
  { unfold prepare_infile, get_self. rewrite M_bind_run. cbn [self].
    rewrite Hinfile, Hname, Hcmd. cbn [is_none andb].
    rewrite M_bind_run. unfold NamedTemporaryFile at 1. cbn [self disk].
    rewrite Hpath, M_bind_run. unfold modify_self at 1. cbn [self disk].
    rewrite M_bind_run. unfold lift at 1. rewrite Hdata.
    rewrite M_bind_run. unfold infile_write at 1.
    cbn [self disk set_infile infile].
    rewrite M_bind_run. unfold infile_flush at 1.
    cbn [self disk set_infile infile flush write name pending].
    unfold modify_self. cbn [self disk app]. by rewrite flush_created. }
  split; [done |]. unfold input. by rewrite M_bind_run, Hprep.
Qed.

Lemma input_creates_infile_witness :
  ∃ path,
    ({[ "/tmp/tmpk3x9.scss" := [] ]} : FS) !! path = None ∧
    endswith path (infile_ext (cls (demo_job SCSSCompiler SCSS_command))) ∧
    (cls (demo_job SCSSCompiler SCSS_command) = SCSSCompiler →
     endswith path ".scss") ∧
    (cls (demo_job SCSSCompiler SCSS_command) = ES6Compiler →
     endswith path ".js") ∧
    @prepare_infile demo_runtime
      {| self := demo_job SCSSCompiler SCSS_command;
         disk := {[ "/tmp/tmpk3x9.scss" := [] ]} |}
    = (Ok tt,
       {| self := with_infile path (demo_job SCSSCompiler SCSS_command);
          disk := <[path := String.list_byte_of_string "body{color:red}"]>
                    {[ "/tmp/tmpk3x9.scss" := [] ]} |}) ∧
    @input demo_runtime (λ st, (Raise (FilterError "not run"), st))
      {| self := demo_job SCSSCompiler SCSS_command;
         disk := {[ "/tmp/tmpk3x9.scss" := [] ]} |}
    = (λ st, (Raise (FilterError "not run"), st))
      {| self := with_infile path (demo_job SCSSCompiler SCSS_command);
         disk := <[path := String.list_byte_of_string "body{color:red}"]>
                   {[ "/tmp/tmpk3x9.scss" := [] ]} |}.
Proof.
  apply (@input_creates_infile demo_runtime
           (demo_job SCSSCompiler SCSS_command)
           {[ "/tmp/tmpk3x9.scss" := [] ]} "q7w2").
  - reflexivity.
  - reflexivity.
  - vm_compute. reflexivity.
  - vm_compute. repeat constructor.
  - vm_compute. reflexivity.
  - reflexivity.
Defined.

(** ** The model on small inputs *)

(** A placeholder without a value makes [str.format] raise; no string is
    produced. *)
Lemma fill_missing (kwargs : gmap string string) (ps : list piece) (n : string) :
  n ∈ holes ps → kwargs !! n = None → ∃ e, fill kwargs ps = Raise e.
Proof.
  intros Hn Hnone. destruct (fill kwargs ps) as [s|e] eqn:Hf; [|by exists e].
  destruct (fill_ok_holes _ _ _ _ Hf Hn) as [v Hv]. congruence.
Qed.

Example format_missing_placeholder :
  str_format "sass {paths} {missing}" (dict [("paths", "-I /a")])
  = Raise (KeyError "missing").
Proof. reflexivity. Qed.

Example format_escaped_braces :
  str_format "a{{b}}c {x}" (dict [("x", "1"); ("x", "2")]) = Ok "a{b}c 2".
Proof. reflexivity. Qed.

Example format_positional_field :
  ∃ msg, str_format "run {} now" (dict [("x", "1")]) = Raise (IndexError msg).
Proof. by eexists. Qed.

Example format_single_brace :
  ∃ msg, str_format "run } now" ∅ = Raise (ValueError msg).
Proof. by eexists. Qed.

Example SCSS_command_has_infile : str_in "{infile}" SCSS_command = true.
Proof. reflexivity. Qed.

Example ES6_command_has_infile : str_in "{infile}" ES6_command = true.
Proof. reflexivity. Qed.

Example demo_roots :
  @get_all_static demo_runtime (demo_settings ["apps"; "bare"; "files"])
  = Ok {[ "/a/static"; "/b/static" ]}.
Proof. vm_compute. reflexivity. Qed.

Example demo_unresolved :
  @get_all_static demo_runtime (demo_settings ["apps"; "nowhere"; "files"])
  = Raise (ImproperlyConfigured "nowhere").
Proof. reflexivity. Qed.

Example demo_taken_name :
  @first_free demo_runtime {[ "/tmp/tmpk3x9.js" := [] ]} ".js" ["k3x9"; "q7w2"]
  = Ok "/tmp/tmpq7w2.js".
Proof. reflexivity. Qed.

Example demo_no_free_name :
  @first_free demo_runtime {[ "/tmp/tmpk3x9.js" := [] ]} ".js" ["k3x9"]
  = Raise FileExistsError.
Proof. reflexivity. Qed.

Example demo_scss_command :
  (opts ← @SCSSCompiler_options demo_runtime (demo_settings ["apps"]) [];
   str_format SCSS_command
     (dict (opts ++ [("infile", "/tmp/tmpk3x9.scss"); ("outfile", "/tmp/out.css")])))
  = Ok (SCSS_command_line "--include-path /a/static --include-path /b/static"
                          "/tmp/tmpk3x9.scss" "/tmp/out.css").
Proof. vm_compute. reflexivity. Qed.

(** With a file name given, [input] creates nothing and goes on to the
    inherited method. *)
Lemma input_with_filename `{Runtime} (job : Job) (fs : FS) (file : string)
    (super_input : M string) :
  filename job = Some file →
  input super_input {| self := job; disk := fs |}
  = super_input {| self := job; disk := fs |}.
Proof.
  intros Hfile. unfold input, prepare_infile, get_self.
  rewrite !M_bind_run. cbn [self]. rewrite Hfile. cbn [is_none].
  by destruct (is_none (infile job) && str_in "{infile}" (command job)).
Qed.

(** When encoding fails the file has been created and is left behind,
    empty, with the job holding it. *)
Lemma prepare_infile_encode_error `{Runtime} (job : Job) (fs : FS)
    (path : string) (e : exn) :
  infile job = None → filename job = None →
  str_in "{infile}" (command job) = true →
  first_free fs (infile_ext (cls job)) (take TMP_MAX tmp_names) = Ok path →
  encode (default_encoding job) (content job) = Raise e →
  prepare_infile {| self := job; disk := fs |}
  = (Raise e, {| self := set_infile {| name := path; pending := [] |} job;
                 disk := <[path := []]> fs |}).
Proof.
  intros Hinfile Hname Hcmd Hpath He.
  unfold prepare_infile, get_self. rewrite M_bind_run. cbn [self].
  rewrite Hinfile, Hname, Hcmd. cbn [is_none andb].
  rewrite M_bind_run. unfold NamedTemporaryFile at 1. cbn [self disk].
  rewrite Hpath, M_bind_run. unfold modify_self at 1. cbn [self disk].
  rewrite M_bind_run. unfold lift at 1. by rewrite He.
Qed.

(** * Further properties *)

(** ** The static roots and the list of finders *)

Lemma resolves_elem_l `{Runtime} (ids : list string) (fs : list Finder)
    (id : string) :
  resolves ids fs → id ∈ ids → ∃ f, f ∈ fs ∧ get_finder id = Ok f.
Proof.
  intros Hr Hid. induction Hr as [|i f ids fs Hi _ IH];
    [by apply elem_of_nil in Hid |].
  apply elem_of_cons in Hid as [->|Hid].
  - exists f. split; [left | done].
  - destruct (IH Hid) as (f' & Hf' & Hid'). exists f'. split; [by right | done].
Qed.

Lemma resolves_elem_r `{Runtime} (ids : list string) (fs : list Finder)
    (f : Finder) :
  resolves ids fs → f ∈ fs → ∃ id, id ∈ ids ∧ get_finder id = Ok f.
Proof.
  intros Hr Hf. induction Hr as [|i f' ids fs Hi _ IH];
    [by apply elem_of_nil in Hf |].
  apply elem_of_cons in Hf as [->|Hf].
  - exists i. split; [left | done].
  - destruct (IH Hf) as (i' & Hi' & Hf'). exists i'. split; [by right | done].
Qed.

Lemma resolves_each `{Runtime} (ids : list string) :
  (∀ id, id ∈ ids → ∃ f, get_finder id = Ok f) → ∃ fs, resolves ids fs.
Proof.
  induction ids as [|id ids IH]; intros Hall; [exists []; constructor |].
  destruct (Hall id) as [f Hf]; [left |].
  destruct IH as [fs Hfs]; [by intros i Hi; apply Hall; right |].
  exists (f :: fs). by constructor.
Qed.

(** The roots collected, told from the identifiers alone. *)
Lemma elem_of_roots_by_id `{Runtime} (ids : list string) (fs : list Finder)
    (p : string) :
  resolves ids fs →
  p ∈ foldl (λ d f, add_finder f d) (∅ : gset string) fs ↔
  ∃ id f, id ∈ ids ∧ get_finder id = Ok f ∧ exposes f p.
Proof.
  intros Hr. rewrite elem_of_get_all_static. split.
  - intros (f & Hf & Hp). destruct (resolves_elem_r _ _ _ Hr Hf) as (id & Hid & Hg).
    by exists id, f.
  - intros (id & f & Hid & Hg & Hp).
    destruct (resolves_elem_l _ _ _ Hr Hid) as (f' & Hf' & Hg').
    exists f'. split; [done |]. congruence.
Qed.

(** X1. The result of [get_all_static] depends on which identifiers are
    configured and not on their order or on repetitions: two lists of
    finders with the same identifiers, the first of which resolves, give
    the same set. *)
Theorem get_all_static_same_finders `{Runtime} (s1 s2 : Settings)
    (fs1 : list Finder) :
  resolves (STATICFILES_FINDERS s1) fs1 →
  (list_to_set (STATICFILES_FINDERS s1) : gset string)
  = list_to_set (STATICFILES_FINDERS s2) →
  get_all_static s2 = get_all_static s1.
Proof.
  intros Hr1 Hsame.
  assert (∀ id, id ∈ STATICFILES_FINDERS s2 ↔ id ∈ STATICFILES_FINDERS s1)
    as Hids.
  { intros id. by rewrite <-!(elem_of_list_to_set (C:=gset string)), Hsame. }
  destruct (resolves_each (STATICFILES_FINDERS s2)) as [fs2 Hr2].
  { intros id Hid%Hids. destruct (resolves_elem_l _ _ _ Hr1 Hid) as (f & _ & Hf).
    by exists f. }
  rewrite (get_all_static_resolves _ _ Hr1), (get_all_static_resolves _ _ Hr2).
  f_equal. apply set_eq. intros p.
  rewrite (elem_of_roots_by_id _ _ _ Hr1), (elem_of_roots_by_id _ _ _ Hr2).
  split; intros (id & f & Hid & Hrest); exists id, f; (split; [by apply Hids | done]).
Qed.

Lemma get_all_static_same_finders_witness :
  @get_all_static demo_runtime (demo_settings ["files"; "apps"; "bare"; "files"])
  = @get_all_static demo_runtime (demo_settings ["apps"; "bare"; "files"]).
Proof.
  apply (@get_all_static_same_finders demo_runtime
           (demo_settings ["apps"; "bare"; "files"])
           (demo_settings ["files"; "apps"; "bare"; "files"])
           [ {| storages := Some {[ "a" := {| location := "/a/static" |};
                                    "b" := {| location := "/b/static" |} ]};
                storage := None |};
             {| storages := None; storage := None |};
             {| storages := None;
                storage := Some {| location := "/a/static" |} |} ]).
  - repeat constructor.
  - vm_compute. reflexivity.
Defined.

(** X2. Configuring the finders of two lists one after the other gives the
    union of what each list gives. *)
Theorem get_all_static_app `{Runtime} (s1 s2 s : Settings) (d1 d2 : gset string) :
  STATICFILES_FINDERS s = (STATICFILES_FINDERS s1 ++ STATICFILES_FINDERS s2)%list →
  get_all_static s1 = Ok d1 →
  get_all_static s2 = Ok d2 →
  get_all_static s = Ok (d1 ∪ d2).
Proof.
  intros Hs H1 H2.
  destruct (get_all_static_ok_resolves _ _ H1) as [fs1 Hr1].
  destruct (get_all_static_ok_resolves _ _ H2) as [fs2 Hr2].
  rewrite (get_all_static_resolves _ _ Hr1) in H1. injection H1 as <-.
  rewrite (get_all_static_resolves _ _ Hr2) in H2. injection H2 as <-.
  assert (resolves (STATICFILES_FINDERS s) (fs1 ++ fs2)) as Hr.
  { rewrite Hs. by apply Forall2_app. }
  rewrite (get_all_static_resolves _ _ Hr). f_equal. apply set_eq. intros p.
  rewrite elem_of_union, !elem_of_get_all_static. split.
  - intros (f & [Hf|Hf]%elem_of_app & Hp); [left | right]; by exists f.
  - intros [(f & Hf & Hp) | (f & Hf & Hp)]; exists f;
      (split; [apply elem_of_app |]); [by left | done | by right | done].
Qed.

Lemma get_all_static_app_witness :
  @get_all_static demo_runtime (demo_settings ["files"; "bare"; "apps"])
  = Ok ({[ "/a/static" ]} ∪ {[ "/a/static"; "/b/static" ]}).
Proof.
  apply (@get_all_static_app demo_runtime (demo_settings ["files"; "bare"])
           (demo_settings ["apps"])).
  - reflexivity.
  - vm_compute. reflexivity.
  - vm_compute. reflexivity.
Defined.

(** X3. The error raised is that of the first identifier that does not
    resolve: when the identifiers before it resolve, the identifiers after
    it make no difference, whether they resolve or not. *)
Theorem get_all_static_first_failure `{Runtime} (settings : Settings)
    (ids1 ids2 : list string) (id : string) (fs1 : list Finder) (e : exn) :
  STATICFILES_FINDERS settings = (ids1 ++ id :: ids2)%list →
  resolves ids1 fs1 →
  get_finder id = Raise e →
  get_all_static settings = Raise e.
Proof.
  intros Hs Hr Hid. unfold get_all_static. rewrite Hs.
  apply collect_raise; [|done].
  apply Forall_forall. intros i Hi.
  destruct (resolves_elem_l _ _ _ Hr Hi) as (f & _ & Hf). by exists f.
Qed.

Lemma get_all_static_first_failure_witness :
  @get_all_static demo_runtime
    (demo_settings ["files"; "missing"; "apps"; "nowhere"])
  = Raise (ImproperlyConfigured "missing").
Proof.
  apply (@get_all_static_first_failure demo_runtime
           (demo_settings ["files"; "missing"; "apps"; "nowhere"])
           ["files"] ["apps"; "nowhere"] "missing"
           [ {| storages := None;
                storage := Some {| location := "/a/static" |} |} ]).
  - reflexivity.
  - repeat constructor.
  - reflexivity.
Defined.

(** ** [input] on every path up to the delegation *)

Lemma prepare_infile_skip `{Runtime} (job : Job) (fs : FS) :
  is_none (infile job) && str_in "{infile}" (command job)
    && is_none (filename job) = false →
  prepare_infile {| self := job; disk := fs |}
  = (Ok tt, {| self := job; disk := fs |}).
Proof.
  intros Hguard. unfold prepare_infile, get_self. rewrite M_bind_run. cbn [self].
  destruct (is_none (infile job) && str_in "{infile}" (command job)); [|done].
  cbn [andb] in Hguard. by rewrite Hguard.
Qed.

Lemma prepare_infile_no_name `{Runtime} (job : Job) (fs : FS) (e : exn) :
  infile job = None → filename job = None →
  str_in "{infile}" (command job) = true →
  first_free fs (infile_ext (cls job)) (take TMP_MAX tmp_names) = Raise e →
  prepare_infile {| self := job; disk := fs |}
  = (Raise e, {| self := job; disk := fs |}).
Proof.
  intros Hinfile Hname Hcmd Hnone.
  unfold prepare_infile, get_self. rewrite M_bind_run. cbn [self].
  rewrite Hinfile, Hname, Hcmd. cbn [is_none andb].
  rewrite M_bind_run. unfold NamedTemporaryFile at 1. cbn [self disk].
  by rewrite Hnone.
Qed.

Lemma prepare_infile_created `{Runtime} (job : Job) (fs : FS) (path : string)
    (data : list byte) :
  infile job = None → filename job = None →
  str_in "{infile}" (command job) = true →
  first_free fs (infile_ext (cls job)) (take TMP_MAX tmp_names) = Ok path →
  encode (default_encoding job) (content job) = Ok data →
  prepare_infile {| self := job; disk := fs |}
  = (Ok tt, {| self := with_infile path job; disk := <[path := data]> fs |}).
Proof.
  intros Hinfile Hname Hcmd Hpath Hdata.
  unfold prepare_infile, get_self. rewrite M_bind_run. cbn [self].
  rewrite Hinfile, Hname, Hcmd. cbn [is_none andb].
  rewrite M_bind_run. unfold NamedTemporaryFile at 1. cbn [self disk].
  rewrite Hpath, M_bind_run. unfold modify_self at 1. cbn [self disk].
  rewrite M_bind_run. unfold lift at 1. rewrite Hdata.
  rewrite M_bind_run. unfold infile_write at 1.
  cbn [self disk set_infile infile].
  rewrite M_bind_run. unfold infile_flush at 1.
  cbn [self disk set_infile infile flush write name pending].
  unfold modify_self. cbn [self disk app]. by rewrite flush_created.
Qed.

(** The four ways in which the preparation ends. *)
Lemma prepare_infile_cases `{Runtime} (job : Job) (fs : FS) :
  prepare_infile {| self := job; disk := fs |}
  = (Ok tt, {| self := job; disk := fs |}) ∧ infile job ≠ None ∨
  prepare_infile {| self := job; disk := fs |}
  = (Ok tt, {| self := job; disk := fs |}) ∧ infile job = None ∧
    (str_in "{infile}" (command job) = false ∨ filename job ≠ None) ∨
  (∃ e, prepare_infile {| self := job; disk := fs |}
        = (Raise e, {| self := job; disk := fs |})) ∨
  (∃ path e, fs !! path = None ∧
     prepare_infile {| self := job; disk := fs |}
     = (Raise e, {| self := set_infile {| name := path; pending := [] |} job;
                    disk := <[path := []]> fs |})) ∨
  (∃ path data, fs !! path = None ∧
     encode (default_encoding job) (content job) = Ok data ∧
     prepare_infile {| self := job; disk := fs |}
     = (Ok tt, {| self := with_infile path job;
                  disk := <[path := data]> fs |})).
Proof.
  destruct (infile job) as [f|] eqn:Hinfile.
  { left. split; [|done]. apply prepare_infile_skip. by rewrite Hinfile. }
  right. destruct (str_in "{infile}" (command job)) eqn:Hcmd; cycle 1.
  { left. split; [|by split; [|left]].
    apply prepare_infile_skip. by rewrite Hinfile, Hcmd. }
  destruct (filename job) as [file|] eqn:Hname.
  { left. split; [|by split; [|right]].
    apply prepare_infile_skip. by rewrite Hinfile, Hcmd, Hname. }
  right.
  destruct (first_free fs (infile_ext (cls job)) (take TMP_MAX tmp_names))
    as [path|e] eqn:Hpath; cycle 1.
  { left. exists e. by apply prepare_infile_no_name. }
  right. destruct (first_free_fresh _ _ _ _ Hpath) as [Hnew _].
  destruct (encode (default_encoding job) (content job)) as [data|e] eqn:Henc.
  - right. exists path, data. split; [done |]. split; [done |].
    by apply prepare_infile_created.
  - left. exists path, e. split; [done |].
    by apply prepare_infile_encode_error.
Qed.

(** X4. When the job already has an input file, or its command has no
    [{infile}], or a file name was given, [input] changes neither the job
    nor the disk and hands both, as they are, to the inherited method. *)
Theorem input_delegates_untouched `{Runtime} (job : Job) (fs : FS)
    (super_input : M string) :
  infile job ≠ None ∨ str_in "{infile}" (command job) = false
    ∨ filename job ≠ None →
  prepare_infile {| self := job; disk := fs |}
  = (Ok tt, {| self := job; disk := fs |}) ∧
  input super_input {| self := job; disk := fs |}
  = super_input {| self := job; disk := fs |}.
Proof.
  intros Hguard.
  assert (prepare_infile {| self := job; disk := fs |}
          = (Ok tt, {| self := job; disk := fs |})) as Hprep.
  { apply prepare_infile_skip.
    destruct Hguard as [Hin | [Hcmd | Hname]].
    - by destruct (infile job).
    - rewrite Hcmd. by rewrite andb_false_r.
    - destruct (filename job); [apply andb_false_r | done]. }
  split; [done |]. unfold input. by rewrite M_bind_run, Hprep.
Qed.

Lemma input_delegates_untouched_witness :
  @prepare_infile demo_runtime
    {| self := demo_job ES6Compiler "uglifyjs --compress"; disk := ∅ |}
  = (Ok tt, {| self := demo_job ES6Compiler "uglifyjs --compress"; disk := ∅ |}) ∧
  @input demo_runtime (λ st, (Ok "done", st))
    {| self := demo_job ES6Compiler "uglifyjs --compress"; disk := ∅ |}
  = (λ st, (Ok "done", st))
    {| self := demo_job ES6Compiler "uglifyjs --compress"; disk := ∅ |}.
Proof.
  apply (@input_delegates_untouched demo_runtime
           (demo_job ES6Compiler "uglifyjs --compress") ∅).
  right. left. reflexivity.
Defined.

(** X5. When the content cannot be encoded, [input] raises the encoding
    error and the inherited method is not run. The temporary file has been
    created by then: it is on disk, empty, and the job holds it, while no
    [infile] option has been added. *)
Theorem input_encode_error `{Runtime} (job : Job) (fs : FS) (rnd : string)
    (e : exn) (super_input : M string) :
  infile job = None →
  filename job = None →
  str_in "{infile}" (command job) = true →
  rnd ∈ take TMP_MAX tmp_names →
  fs !! tmp_path rnd (infile_ext (cls job)) = None →
  encode (default_encoding job) (content job) = Raise e →
  ∃ path st',
    input super_input {| self := job; disk := fs |} = (Raise e, st') ∧
    fs !! path = None ∧
    disk st' = <[path := []]> fs ∧
    infile (self st') = Some {| name := path; pending := [] |} ∧
    options (self st') = options job.
Proof.
  intros Hinfile Hname Hcmd Hrnd Hfree Henc.
  destruct (first_free_found fs _ _ rnd Hrnd Hfree) as [path Hpath].
  destruct (first_free_fresh _ _ _ _ Hpath) as [Hnew _].
  exists path. eexists. split.
  - unfold input. rewrite M_bind_run.
    by rewrite (prepare_infile_encode_error _ _ _ _ Hinfile Hname Hcmd Hpath Henc).
  - done.
Qed.

Lemma input_encode_error_witness :
  ∃ path st',
    @input demo_runtime (λ st, (Ok "done", st))
      {| self := {| cls := ES6Compiler; content := "let a = 1;";
                    command := ES6_command; filename := None; infile := None;
                    options := [("paths", "/a/static")];
                    default_encoding := "klingon" |};
         disk := ∅ |}
    = (Raise (LookupError "klingon"), st') ∧
    (∅ : FS) !! path = None ∧
    disk st' = <[path := []]> ∅ ∧
    infile (self st') = Some {| name := path; pending := [] |} ∧
    options (self st')
    = options {| cls := ES6Compiler; content := "let a = 1;";
                 command := ES6_command; filename := None; infile := None;
                 options := [("paths", "/a/static")];
                 default_encoding := "klingon" |}.
Proof.
  apply (@input_encode_error demo_runtime
           {| cls := ES6Compiler; content := "let a = 1;";
              command := ES6_command; filename := None; infile := None;
              options := [("paths", "/a/static")];
              default_encoding := "klingon" |} ∅ "k3x9").
  - reflexivity.
  - reflexivity.
  - vm_compute. reflexivity.
  - vm_compute. repeat constructor.
  - vm_compute. reflexivity.
  - reflexivity.
Defined.

Lemma first_free_all_taken `{Runtime} (fs : FS) (suffix : string)
    (candidates : list string) :
  Forall (λ rnd, is_Some (fs !! tmp_path rnd suffix)) candidates →
  first_free fs suffix candidates = Raise FileExistsError.
Proof.
  induction 1 as [|rnd rest Hrnd _ IH]; [done |].
  cbn [first_free]. by rewrite bool_decide_eq_true_2.
Qed.

(** X6. When [NamedTemporaryFile] has [TMP_MAX] candidate names to try and
    every one of them is taken, [input] raises [FileExistsError]; the job
    and the disk are as they were and the inherited method is not run. *)
Theorem input_no_free_name `{Runtime} (job : Job) (fs : FS)
    (super_input : M string) :
  infile job = None →
  filename job = None →
  str_in "{infile}" (command job) = true →
  (TMP_MAX ≤ length tmp_names)%nat →
  Forall (λ rnd, is_Some (fs !! tmp_path rnd (infile_ext (cls job))))
         (take TMP_MAX tmp_names) →
  input super_input {| self := job; disk := fs |}
  = (Raise FileExistsError, {| self := job; disk := fs |}).
Proof.
  intros Hinfile Hname Hcmd _ Htaken. unfold input. rewrite M_bind_run.
  by rewrite (prepare_infile_no_name _ _ _ Hinfile Hname Hcmd
                (first_free_all_taken _ _ _ Htaken)).
Qed.

Lemma input_no_free_name_witness :
  @input crowded_runtime (λ st, (Ok "done", st))
    {| self := demo_job SCSSCompiler SCSS_command;
       disk := {[ "/tmp/tmpk3x9.scss" := []; "/tmp/tmpq7w2.scss" := [] ]} |}
  = (Raise FileExistsError,
     {| self := demo_job SCSSCompiler SCSS_command;
        disk := {[ "/tmp/tmpk3x9.scss" := []; "/tmp/tmpq7w2.scss" := [] ]} |}).
Proof.
  apply (@input_no_free_name crowded_runtime
           (demo_job SCSSCompiler SCSS_command)
           {[ "/tmp/tmpk3x9.scss" := []; "/tmp/tmpq7w2.scss" := [] ]}).
  - reflexivity.
  - reflexivity.
  - vm_compute. reflexivity.
  - vm_compute. lia.
  - vm_compute. repeat econstructor.
Defined.

(** X7. Whatever the outcome of the preparation, a file that was on disk
    before is still there with the same bytes: the temporary file never
    takes the place of an existing file. *)
Theorem prepare_infile_keeps_files `{Runtime} (st : State) (p : string)
    (bytes : list byte) :
  disk st !! p = Some bytes →
  disk (prepare_infile st).2 !! p = Some bytes.
Proof.
  destruct st as [job fs]. cbn [disk]. intros Hp.
  destruct (prepare_infile_cases job fs)
    as [[-> _] | [[-> _] | [[e ->] | [(path & e & Hnew & ->)
                                      | (path & data & Hnew & _ & ->)]]]];
    cbn [snd disk]; try done.
  - rewrite lookup_insert_ne; [done | congruence].
  - rewrite lookup_insert_ne; [done | congruence].
Qed.

Lemma prepare_infile_keeps_files_witness :
  disk (@prepare_infile demo_runtime
          {| self := demo_job SCSSCompiler SCSS_command;
             disk := {[ "/tmp/tmpk3x9.scss" := [x61; x62]%byte ]} |}).2
    !! "/tmp/tmpk3x9.scss"
  = Some [x61; x62]%byte.
Proof.
  apply (@prepare_infile_keeps_files demo_runtime
           {| self := demo_job SCSSCompiler SCSS_command;
              disk := {[ "/tmp/tmpk3x9.scss" := [x61; x62]%byte ]} |}).
  vm_compute. reflexivity.
Defined.

(** X8. The preparation changes nothing of the job but its input file and
    its options, and the options only at the end: either they are as
    before, or the call has returned and the one pair [('infile', path)]
    has been appended, [path] being the name of the input file the job now
    holds. *)
Theorem prepare_infile_job_frame `{Runtime} (st : State) :
  let st' := (prepare_infile st).2 in
  cls (self st') = cls (self st) ∧
  content (self st') = content (self st) ∧
  command (self st') = command (self st) ∧
  filename (self st') = filename (self st) ∧
  default_encoding (self st') = default_encoding (self st) ∧
  (options (self st') = options (self st) ∨
   ∃ path, (prepare_infile st).1 = Ok tt ∧
           infile (self st') = Some {| name := path; pending := [] |} ∧
           options (self st') = (options (self st) ++ [("infile", path)])%list).
Proof.
  destruct st as [job fs]. cbn zeta.
  destruct (prepare_infile_cases job fs)
    as [[-> _] | [[-> _] | [[e ->] | [(path & e & Hnew & ->)
                                      | (path & data & Hnew & _ & ->)]]]];
    cbn [fst snd self]; repeat split; try done; try (by left).
  right. by exists path.
Qed.

(** X9. Preparing twice is preparing once: after a preparation that
    returned, a second one returns too and leaves the job and the disk as
    the first left them, so no second file and no second [infile] option. *)
Theorem prepare_infile_idempotent `{Runtime} (st : State) :
  (prepare_infile st).1 = Ok tt →
  prepare_infile (prepare_infile st).2 = (Ok tt, (prepare_infile st).2).
Proof.
  destruct st as [job fs].
  destruct (prepare_infile_cases job fs)
    as [[Hp _] | [[Hp _] | [[e ->] | [(path & e & Hnew & ->)
                                      | (path & data & Hnew & _ & ->)]]]];
    cbn [fst snd]; intros Hok; try done; try by apply prepare_infile_skip.
  - rewrite Hp. cbn [snd]. exact Hp.
  - rewrite Hp. cbn [snd]. exact Hp.
Qed.

Lemma prepare_infile_idempotent_witness :
  @prepare_infile demo_runtime
    (@prepare_infile demo_runtime
       {| self := demo_job ES6Compiler ES6_command; disk := ∅ |}).2
  = (Ok tt,
     (@prepare_infile demo_runtime
        {| self := demo_job ES6Compiler ES6_command; disk := ∅ |}).2).
Proof.
  apply (@prepare_infile_idempotent demo_runtime
           {| self := demo_job ES6Compiler ES6_command; disk := ∅ |}).
  vm_compute. reflexivity.
Defined.

(** ** The options of the constructors *)

Lemma dict_snoc_other (options : list (string * string)) (k k' v : string) :
  k ≠ k' → dict (options ++ [(k', v)]) !! k = dict options !! k.
Proof. intros Hk. rewrite dict_snoc. by apply lookup_insert_ne. Qed.

(** X10. The constructors add to the options they find and take nothing
    away: the inherited options stay in front, and in the dictionary made
    of the options every key but [paths] (and [node_modules] for the module
    compiler) has the value it had. *)
Theorem constructors_keep_inherited `{Runtime} (settings : Settings)
    (dirs : gset string) (inherited : list (string * string)) :
  get_all_static settings = Ok dirs →
  ∃ scss es6,
    SCSSCompiler_options settings inherited = Ok scss ∧
    ES6Compiler_options settings inherited = Ok es6 ∧
    inherited `prefix_of` scss ∧
    inherited `prefix_of` es6 ∧
    (∀ k, k ≠ "paths" → dict scss !! k = dict inherited !! k) ∧
    (∀ k, k ≠ "paths" → k ≠ "node_modules" →
          dict es6 !! k = dict inherited !! k).
Proof.
  intros Hdirs. unfold SCSSCompiler_options, ES6Compiler_options.
  rewrite Hdirs. cbn [mbind result_bind mret result_ret]. eexists _, _.
  split; [done |]. split; [done |].
  split; [by eexists |]. split; [by eexists |]. split.
  - intros k Hk. by apply dict_snoc_other.
  - intros k Hp Hn.
    change (inherited ++ [("node_modules", node_modules settings);
                          ("paths", ES6_paths dirs)])%list
      with (inherited ++ [("node_modules", node_modules settings)]
                      ++ [("paths", ES6_paths dirs)])%list.
    rewrite (assoc_L (++))%list. by rewrite !dict_snoc_other.
Qed.

Lemma constructors_keep_inherited_witness :
  ∃ scss es6,
    @SCSSCompiler_options demo_runtime (demo_settings ["files"])
      [("paths", "/old"); ("verbose", "1")] = Ok scss ∧
    @ES6Compiler_options demo_runtime (demo_settings ["files"])
      [("paths", "/old"); ("verbose", "1")] = Ok es6 ∧
    [("paths", "/old"); ("verbose", "1")] `prefix_of` scss ∧
    [("paths", "/old"); ("verbose", "1")] `prefix_of` es6 ∧
    (∀ k, k ≠ "paths" →
          dict scss !! k = dict [("paths", "/old"); ("verbose", "1")] !! k) ∧
    (∀ k, k ≠ "paths" → k ≠ "node_modules" →
          dict es6 !! k = dict [("paths", "/old"); ("verbose", "1")] !! k).
Proof.
  apply (@constructors_keep_inherited demo_runtime (demo_settings ["files"])
           {[ "/a/static" ]}).
  vm_compute. reflexivity.
Defined.

(** X11. With a single root there is no separator: the [paths] option of
    the style-sheet compiler is the one flag and that of the module
    compiler is the root itself. *)
Theorem single_root_paths `{Runtime} (settings : Settings) (root : string)
    (inherited : list (string * string)) :
  (∀ s, set_iter s ≡ₚ elements s) →
  get_all_static settings = Ok {[ root ]} →
  SCSSCompiler_options settings inherited
  = Ok (inherited ++ [("paths", "--include-path " +:+ root)])%list ∧
  ES6Compiler_options settings inherited
  = Ok (inherited ++ [("node_modules", node_modules settings);
                      ("paths", root)])%list.
Proof.
  intros Hiter Hdirs.
  assert (set_iter {[ root ]} = [root]) as Hone.
  { apply Permutation_singleton_r. by rewrite Hiter, elements_singleton. }
  unfold SCSSCompiler_options, ES6Compiler_options, SCSS_paths, ES6_paths.
  rewrite Hdirs. cbn [mbind result_bind mret result_ret]. by rewrite Hone.
Qed.

Lemma single_root_paths_witness :
  @SCSSCompiler_options demo_runtime (demo_settings ["files"]) []
  = Ok [("paths", "--include-path " +:+ "/a/static")] ∧
  @ES6Compiler_options demo_runtime (demo_settings ["files"]) []
  = Ok [("node_modules", @node_modules (demo_settings ["files"]));
        ("paths", "/a/static")].
Proof.
  apply (@single_root_paths demo_runtime (demo_settings ["files"]) "/a/static" []).
  - reflexivity.
  - vm_compute. reflexivity.
Defined.

(** ** The commands and their placeholders *)

Lemma field_value_raise (kwargs : gmap string string) (n : string) (e : exn) :
  all_digits n = false → field_value kwargs n = Raise e →
  kwargs !! n = None ∧ e = KeyError n.
Proof.
  unfold field_value. intros ->. destruct (kwargs !! n); [done |].
  by intros [= <-].
Qed.

Lemma fill_raise (kwargs : gmap string string) (ps : list piece) (e : exn) :
  Forall (λ n, all_digits n = false) (holes ps) →
  fill kwargs ps = Raise e →
  ∃ n, n ∈ holes ps ∧ kwargs !! n = None ∧ e = KeyError n.
Proof.
  induction ps as [|[t|m] ps IH]; intros Hnames Hf; [done | |].
  - cbn [fill] in Hf. destruct (fill kwargs ps) as [s|e'] eqn:E; [done |].
    injection Hf as <-. by apply IH.
  - unfold holes in Hnames. cbn [omap list_omap] in Hnames.
    apply Forall_cons in Hnames as [Hm Hnames]. cbn [fill] in Hf.
    destruct (field_value kwargs m) as [v|e'] eqn:Ev.
    + cbn [mbind result_bind] in Hf.
      destruct (fill kwargs ps) as [s|e''] eqn:E; [done |]. injection Hf as <-.
      destruct (IH Hnames eq_refl) as (n & Hn & Hnone & ->).
      exists n. split; [by right | done].
    + injection Hf as <-. destruct (field_value_raise _ _ _ Hm Ev) as [Hnone ->].
      exists m. split; [left | done].
Qed.

Lemma SCSS_holes : holes SCSS_pieces = ["paths"; "infile"; "outfile"; "outfile"].
Proof. reflexivity. Qed.

Lemma ES6_holes :
  holes ES6_pieces
  = ["paths"; "infile"; "outfile"; "node_modules"; "node_modules"].
Proof. reflexivity. Qed.

(** X12. Formatting a command of this package either succeeds, and then
    the keyword arguments have a value for each placeholder of the
    template, or raises [KeyError] for a placeholder that has none; the
    placeholders are [paths], [infile] and [outfile], and [node_modules] as
    well for the module compiler. *)
Theorem command_placeholders (kwargs : gmap string string) :
  match str_format SCSS_command kwargs with
  | Ok _ => ∀ k, k ∈ ["paths"; "infile"; "outfile"] → is_Some (kwargs !! k)
  | Raise e => ∃ k, k ∈ ["paths"; "infile"; "outfile"] ∧ kwargs !! k = None
                    ∧ e = KeyError k
  end ∧
  match str_format ES6_command kwargs with
  | Ok _ => ∀ k, k ∈ ["paths"; "infile"; "outfile"; "node_modules"] →
                 is_Some (kwargs !! k)
  | Raise e => ∃ k, k ∈ ["paths"; "infile"; "outfile"; "node_modules"]
                    ∧ kwargs !! k = None ∧ e = KeyError k
  end.
Proof.
  rewrite SCSS_command_pieces, ES6_command_pieces, !format_pieces by done.
  split.
  - destruct (fill kwargs SCSS_pieces) as [cmd|e] eqn:Hf.
    + intros k Hk. apply (fill_ok_holes _ _ _ _ Hf). rewrite SCSS_holes.
      rewrite !elem_of_cons in Hk. rewrite !elem_of_cons. tauto.
    + destruct (fill_raise kwargs SCSS_pieces e) as (n & Hn & Hnone & ->);
        [rewrite SCSS_holes; by repeat constructor | done |].
      exists n. split; [|done]. rewrite SCSS_holes in Hn.
      rewrite !elem_of_cons in Hn. rewrite !elem_of_cons. tauto.
  - destruct (fill kwargs ES6_pieces) as [cmd|e] eqn:Hf.
    + intros k Hk. apply (fill_ok_holes _ _ _ _ Hf). rewrite ES6_holes.
      rewrite !elem_of_cons in Hk. rewrite !elem_of_cons. tauto.
    + destruct (fill_raise kwargs ES6_pieces e) as (n & Hn & Hnone & ->);
        [rewrite ES6_holes; by repeat constructor | done |].
      exists n. split; [|done]. rewrite ES6_holes in Hn.
      rewrite !elem_of_cons in Hn. rewrite !elem_of_cons. tauto.
Qed.

(** ** From the constructor to the command line *)

Lemma with_infile_dict_infile (path : string) (job : Job) :
  dict (options (with_infile path job)) !! "infile" = Some path.
Proof. cbn [with_infile options]. rewrite dict_snoc. apply lookup_insert_eq. Qed.

Lemma with_infile_dict_other (path : string) (job : Job) (k : string) :
  k ≠ "infile" →
  dict (options (with_infile path job)) !! k = dict (options job) !! k.
Proof. intros Hk. cbn [with_infile options]. by apply dict_snoc_other. Qed.

(** X13. A style-sheet job whose options are those of its constructor,
    followed by options that do not set [paths], and that has no input
    file and no file name: [input] creates a file ending in [.scss] with
    the encoded content, and the template, formatted with the [paths] and
    [infile] options of the job and an output file, is the command line
    with one [--include-path] flag per root, the name of that file and the
    output file. *)
Theorem SCSS_job_command `{Runtime} (settings : Settings) (dirs : gset string)
    (inherited opts later : list (string * string)) (job : Job) (fs : FS)
    (rnd : string) (data : list byte) :
  get_all_static settings = Ok dirs →
  SCSSCompiler_options settings inherited = Ok opts →
  options job = (opts ++ later)%list →
  "paths" ∉ later.*1 →
  cls job = SCSSCompiler →
  command job = SCSS_command →
  infile job = None →
  filename job = None →
  rnd ∈ take TMP_MAX tmp_names →
  fs !! tmp_path rnd ".scss" = None →
  encode (default_encoding job) (content job) = Ok data →
  ∃ path st',
    prepare_infile {| self := job; disk := fs |} = (Ok tt, st') ∧
    endswith path ".scss" ∧
    fs !! path = None ∧
    disk st' !! path = Some data ∧
    ∀ kwargs o,
      kwargs !! "paths" = dict (options (self st')) !! "paths" →
      kwargs !! "infile" = dict (options (self st')) !! "infile" →
      kwargs !! "outfile" = Some o →
      str_format (command (self st')) kwargs
      = Ok (SCSS_command_line (SCSS_paths dirs) path o).
Proof.
  intros Hdirs Hopts Hjob Hlater Hcls Hcmd Hinfile Hname Hrnd Hfree Hdata.
  unfold SCSSCompiler_options in Hopts. rewrite Hdirs in Hopts.
  cbn [mbind result_bind mret result_ret] in Hopts. injection Hopts as <-.
  assert (infile_ext (cls job) = ".scss") as Hext by by rewrite Hcls.
  rewrite <-Hext in Hfree.
  destruct (first_free_found fs _ _ rnd Hrnd Hfree) as [path Hpath].
  destruct (first_free_fresh _ _ _ _ Hpath) as (Hnew & rnd' & _ & Hrnd').
  exists path. eexists. split.
  { apply prepare_infile_created; [done | done | | done | done].
    by rewrite Hcmd. }
  split; [rewrite Hrnd', Hext; apply tmp_path_endswith |].
  split; [done |]. cbn [disk self]. split; [apply lookup_insert_eq |].
  intros kwargs o Hp Hi Ho.
  rewrite with_infile_dict_other, Hjob, dict_app_other, SCSS_options_paths
    in Hp by done.
  rewrite with_infile_dict_infile in Hi.
  cbn [with_infile command]. rewrite Hcmd. by apply SCSS_format.
Qed.

Lemma SCSS_job_command_witness :
  ∃ path st',
    @prepare_infile demo_runtime
      {| self := {| cls := SCSSCompiler; content := "body{color:red}";
                    command := SCSS_command; filename := None; infile := None;
                    options := [("paths", @SCSS_paths demo_runtime
                                            {[ "/a/static"; "/b/static" ]})]
                               ++ [("charset", "utf-8")];
                    default_encoding := "utf-8" |};
         disk := ∅ |}
    = (Ok tt, st') ∧
    endswith path ".scss" ∧
    (∅ : FS) !! path = None ∧
    disk st' !! path = Some (String.list_byte_of_string "body{color:red}") ∧
    ∀ kwargs o,
      kwargs !! "paths" = dict (options (self st')) !! "paths" →
      kwargs !! "infile" = dict (options (self st')) !! "infile" →
      kwargs !! "outfile" = Some o →
      str_format (command (self st')) kwargs
      = Ok (SCSS_command_line
              (@SCSS_paths demo_runtime {[ "/a/static"; "/b/static" ]}) path o).
Proof.
  apply (@SCSS_job_command demo_runtime (demo_settings ["apps"])
           {[ "/a/static"; "/b/static" ]} []
           [("paths", @SCSS_paths demo_runtime {[ "/a/static"; "/b/static" ]})]
           [("charset", "utf-8")] _ ∅ "k3x9").
  - vm_compute. reflexivity.
  - vm_compute. reflexivity.
  - reflexivity.
  - apply (bool_decide_unpack _). vm_compute. exact I.
  - reflexivity.
  - reflexivity.
  - reflexivity.
  - reflexivity.
  - vm_compute. repeat constructor.
  - vm_compute. reflexivity.
  - reflexivity.
Defined.

(** X14. The same for a module job, whose later options set neither
    [paths] nor [node_modules]: the file ends in [.js], and the formatted
    template is the command line with the roots joined by [os.pathsep] in
    [NODE_PATH], the name of that file, the output file, and the
    [node_modules] directory of the settings before both Babel modules. *)
Theorem ES6_job_command `{Runtime} (settings : Settings) (dirs : gset string)
    (inherited opts later : list (string * string)) (job : Job) (fs : FS)
    (rnd : string) (data : list byte) :
  get_all_static settings = Ok dirs →
  ES6Compiler_options settings inherited = Ok opts →
  options job = (opts ++ later)%list →
  "paths" ∉ later.*1 →
  "node_modules" ∉ later.*1 →
  cls job = ES6Compiler →
  command job = ES6_command →
  infile job = None →
  filename job = None →
  rnd ∈ take TMP_MAX tmp_names →
  fs !! tmp_path rnd ".js" = None →
  encode (default_encoding job) (content job) = Ok data →
  ∃ path st',
    prepare_infile {| self := job; disk := fs |} = (Ok tt, st') ∧
    endswith path ".js" ∧
    fs !! path = None ∧
    disk st' !! path = Some data ∧
    ∀ kwargs o,
      kwargs !! "paths" = dict (options (self st')) !! "paths" →
      kwargs !! "node_modules" = dict (options (self st')) !! "node_modules" →
      kwargs !! "infile" = dict (options (self st')) !! "infile" →
      kwargs !! "outfile" = Some o →
      str_format (command (self st')) kwargs
      = Ok (ES6_command_line (ES6_paths dirs) path o (node_modules settings)).
Proof.
  intros Hdirs Hopts Hjob Hlp Hln Hcls Hcmd Hinfile Hname Hrnd Hfree Hdata.
  unfold ES6Compiler_options in Hopts. rewrite Hdirs in Hopts.
  cbn [mbind result_bind mret result_ret] in Hopts. injection Hopts as <-.
  assert (infile_ext (cls job) = ".js") as Hext by by rewrite Hcls.
  rewrite <-Hext in Hfree.
  destruct (first_free_found fs _ _ rnd Hrnd Hfree) as [path Hpath].
  destruct (first_free_fresh _ _ _ _ Hpath) as (Hnew & rnd' & _ & Hrnd').
  exists path. eexists. split.
  { apply prepare_infile_created; [done | done | | done | done].
    by rewrite Hcmd. }
  split; [rewrite Hrnd', Hext; apply tmp_path_endswith |].
  split; [done |]. cbn [disk self]. split; [apply lookup_insert_eq |].
  intros kwargs o Hp Hn Hi Ho.
  rewrite with_infile_dict_other, Hjob, dict_app_other, ES6_options_paths
    in Hp by done.
  rewrite with_infile_dict_other, Hjob, dict_app_other,
    ES6_options_node_modules in Hn by done.
  rewrite with_infile_dict_infile in Hi.
  cbn [with_infile command]. rewrite Hcmd. by apply ES6_format.
Qed.

Lemma ES6_job_command_witness :
  ∃ path st',
    @prepare_infile demo_runtime
      {| self := {| cls := ES6Compiler; content := "let a = 1;";
                    command := ES6_command; filename := None; infile := None;
                    options := [("node_modules", "/usr/lib/node_modules");
                                ("paths", @ES6_paths demo_runtime
                                            {[ "/a/static"; "/b/static" ]})]
                               ++ [("charset", "utf-8")];
                    default_encoding := "utf-8" |};
         disk := {[ "/tmp/tmpk3x9.js" := [] ]} |}
    = (Ok tt, st') ∧
    endswith path ".js" ∧
    ({[ "/tmp/tmpk3x9.js" := [] ]} : FS) !! path = None ∧
    disk st' !! path = Some (String.list_byte_of_string "let a = 1;") ∧
    ∀ kwargs o,
      kwargs !! "paths" = dict (options (self st')) !! "paths" →
      kwargs !! "node_modules" = dict (options (self st')) !! "node_modules" →
      kwargs !! "infile" = dict (options (self st')) !! "infile" →
      kwargs !! "outfile" = Some o →
      str_format (command (self st')) kwargs
      = Ok (ES6_command_line
              (@ES6_paths demo_runtime {[ "/a/static"; "/b/static" ]}) path o
              (node_modules (demo_settings ["apps"]))).
Proof.
  apply (@ES6_job_command demo_runtime (demo_settings ["apps"])
           {[ "/a/static"; "/b/static" ]} []
           [("node_modules", "/usr/lib/node_modules");
            ("paths", @ES6_paths demo_runtime {[ "/a/static"; "/b/static" ]})]
           [("charset", "utf-8")] _ {[ "/tmp/tmpk3x9.js" := [] ]} "q7w2").
  - vm_compute. reflexivity.
  - vm_compute. reflexivity.
  - reflexivity.
  - apply (bool_decide_unpack _). vm_compute. exact I.
  - apply (bool_decide_unpack _). vm_compute. exact I.
  - reflexivity.
  - reflexivity.
  - reflexivity.
  - reflexivity.
  - vm_compute. repeat constructor.
  - vm_compute. reflexivity.
  - reflexivity.
Defined.
